(** * RD-Symlinks: a shallow embedding of [rd-sym.py]

    The Python program keeps a library of movie and TV-episode symlinks in
    sync with a pool of media files.  This development embeds the parts of
    [rd-sym.py] that decide where links go and when the ledgers change:
    the string helpers of the [Handler] class, the memoised TMDb resolver,
    the dispatcher [process], [process_movie], [process_series], the ledger
    methods and [validate_symlinks]; and the same handler of the older
    script [Cinesync.py].

    Modelling conventions.
    - Python [str] is [string] (ASCII); [str] methods are written out below.
    - The TMDb service, [guessit] and the [titlecase] package are external
      libraries; they appear as arguments (a service record, a parsed
      [file_info] record, a function [string -> string]).
    - [sys.exit(1)] and uncaught exceptions are explicit outcomes of a small
      state/exception monad; [stop_on_error] is an explicit boolean (the
      module sets it to [true]). *)

From Stdlib Require Import String Ascii List Bool Arith Lia Permutation.
Import ListNotations.
Open Scope list_scope.
Open Scope string_scope.
Open Scope nat_scope.
Set Warnings "-abstract-large-number".

(* ------------------------------------------------------------------ *)
(** ** Python string operations *)

Module PyStr.

(** [s.startswith(p)] *)
Fixpoint prefix (p s : string) : bool :=
  match p, s with
  | EmptyString, _ => true
  | String c p', String d s' => Ascii.eqb c d && prefix p' s'
  | String _ _, EmptyString => false
  end.

(** [sub in s] *)
Fixpoint contains (sub s : string) : bool :=
  prefix sub s ||
  match s with
  | EmptyString => false
  | String _ s' => contains sub s'
  end.

(** [s.find(sub)], as an option *)
Fixpoint find (sub s : string) : option nat :=
  if prefix sub s then Some 0 else
  match s with
  | EmptyString => None
  | String _ s' => option_map S (find sub s')
  end.

(** [s[:n]] and [s[n:]] *)
Fixpoint str_take (n : nat) (s : string) : string :=
  match n, s with
  | O, _ => EmptyString
  | S n', String c s' => String c (str_take n' s')
  | S _, EmptyString => EmptyString
  end.

Fixpoint str_drop (n : nat) (s : string) : string :=
  match n, s with
  | O, _ => s
  | S n', String _ s' => str_drop n' s'
  | S _, EmptyString => EmptyString
  end.

(** [s.replace(old, new, 1)]: the leftmost occurrence only. *)
Fixpoint replace1 (old new s : string) : string :=
  if prefix old s then new ++ str_drop (String.length old) s else
  match s with
  | EmptyString => EmptyString
  | String c s' => String c (replace1 old new s')
  end.

Fixpoint mem_char (c : ascii) (cs : string) : bool :=
  match cs with
  | EmptyString => false
  | String d cs' => Ascii.eqb c d || mem_char c cs'
  end.

(** [s.rstrip(chars)] *)
Fixpoint rstrip (chars s : string) : string :=
  match s with
  | EmptyString => EmptyString
  | String c s' =>
      match rstrip chars s' with
      | EmptyString => if mem_char c chars then EmptyString else String c EmptyString
      | r => String c r
      end
  end.

(** Python's [str.isspace] on ASCII: 9-13, 28-31 and the space. *)
Definition is_space (c : ascii) : bool :=
  let n := nat_of_ascii c in
  ((9 <=? n) && (n <=? 13)) || ((28 <=? n) && (n <=? 32)).

Fixpoint lstrip_ws (s : string) : string :=
  match s with
  | EmptyString => EmptyString
  | String c s' => if is_space c then lstrip_ws s' else s
  end.

Fixpoint rstrip_ws (s : string) : string :=
  match s with
  | EmptyString => EmptyString
  | String c s' =>
      match rstrip_ws s' with
      | EmptyString => if is_space c then EmptyString else String c EmptyString
      | r => String c r
      end
  end.

(** [s.strip()] *)
Definition strip (s : string) : string := lstrip_ws (rstrip_ws s).

Definition is_upper (c : ascii) : bool :=
  let n := nat_of_ascii c in (65 <=? n) && (n <=? 90).
Definition is_lower (c : ascii) : bool :=
  let n := nat_of_ascii c in (97 <=? n) && (n <=? 122).
Definition is_digit (c : ascii) : bool :=
  let n := nat_of_ascii c in (48 <=? n) && (n <=? 57).
Definition to_upper (c : ascii) : ascii :=
  if is_lower c then ascii_of_nat (nat_of_ascii c - 32) else c.
Definition to_lower (c : ascii) : ascii :=
  if is_upper c then ascii_of_nat (nat_of_ascii c + 32) else c.

(** [s.title()]: CPython's [do_title], with [previous_is_cased] as state. *)
Fixpoint title_from (prev_cased : bool) (s : string) : string :=
  match s with
  | EmptyString => EmptyString
  | String c s' =>
      if is_upper c then
        String (if prev_cased then to_lower c else c) (title_from true s')
      else if is_lower c then
        String (if prev_cased then c else to_upper c) (title_from true s')
      else String c (title_from false s')
  end.

Definition title (s : string) : string := title_from false s.

(** [str(n)] for a non-negative int. *)
Fixpoint digits_rev (fuel n : nat) : list ascii :=
  match fuel with
  | O => []
  | S f =>
      let d := ascii_of_nat (48 + n mod 10) in
      if n <? 10 then [d] else d :: digits_rev f (n / 10)
  end.

Definition str_of_nat (n : nat) : string :=
  string_of_list_ascii (rev (digits_rev (S n) n)).

(** [s.lower()] (ASCII letters) *)
Fixpoint lower (s : string) : string :=
  match s with
  | EmptyString => EmptyString
  | String c s' => String (to_lower c) (lower s')
  end.

(** [f"{n:02d}"] *)
Definition fmt02 (n : nat) : string :=
  if n <? 10 then "0" ++ str_of_nat n else str_of_nat n.

End PyStr.

(* ------------------------------------------------------------------ *)
(** ** [Handler.clean_file_name] *)

Module Clean.
Import PyStr.

(** The literal set [words_to_remove], listed in source order.  The loop
    iterates a Python [set]; its order is Python's, so the function is
    defined for any iteration order [order]. *)
Definition words_to_remove : list string :=
  ["TEPES"; "rartv"; "1080p"; "720p"; "x264"; "x265"; "WEB-DL"; "BluRay";
   "BRRip"; "WEBRip"].

(** [re.sub(r"\[.*?\]", "", name)]: at each ['['] the lazy [.*?] runs to the
    first [']'] ([.] does not cross a newline); where none follows, the ['[']
    is kept and the scan resumes one character later. *)
Fixpoint close_bracket (s : string) : option string :=
  match s with
  | EmptyString => None
  | String c s' =>
      if Ascii.eqb c "]"%char then Some s'
      else if Ascii.eqb c "010"%char then None
      else close_bracket s'
  end.

Fixpoint remove_brackets_fuel (fuel : nat) (s : string) : string :=
  match fuel with
  | O => s
  | S f =>
      match s with
      | EmptyString => EmptyString
      | String c s' =>
          if Ascii.eqb c "["%char then
            match close_bracket s' with
            | Some rest => remove_brackets_fuel f rest
            | None => String c (remove_brackets_fuel f s')
            end
          else String c (remove_brackets_fuel f s')
      end
  end.

Definition remove_brackets (s : string) : string :=
  remove_brackets_fuel (S (String.length s)) s.

(** The loop [for word in words_to_remove: name = name.replace(word, "", 1)]. *)
Definition remove_words (order : list string) (name : string) : string :=
  fold_left (fun n w => replace1 w "" n) order name.

Definition clean_file_name_in (order : list string) (name : string) : string :=
  let name := remove_words order name in
  let name := rstrip ".- " name in
  let name := remove_brackets name in
  strip name.

Definition clean_file_name : string -> string :=
  clean_file_name_in words_to_remove.

(** Deleting the first occurrence of [w] from [s], by its index: the
    reading of one step of the removal loop used in the statements below. *)
Definition delete_first (w s : string) : string :=
  match find w s with
  | Some i => str_take i s ++ str_drop (i + String.length w) s
  | None => s
  end.

End Clean.

(* ------------------------------------------------------------------ *)
(** ** Values crossing the TMDb boundary, and Python outcomes *)

Module Py.

(** What [get_tmdb_id] returns: an integer TMDb id, or the string ["N/A"]. *)
Inductive tmdb_result := TmdbId (n : nat) | NotFound.

Definition tmdb_result_eqb (a b : tmdb_result) : bool :=
  match a, b with
  | TmdbId n, TmdbId m => Nat.eqb n m
  | NotFound, NotFound => true
  | _, _ => false
  end.

(** A call into [tmdbsimple]: a response, or an exception (network error,
    HTTP error, missing key in the JSON). *)
Inductive svc (A : Type) := SvcOk (a : A) | SvcErr.
Arguments SvcOk {A} a.
Arguments SvcErr {A}.

(** How a Python call ends: a value, [sys.exit(code)] (a [SystemExit],
    which [except Exception] does not catch), or another exception. *)
Inductive pyres (A : Type) := PyOk (a : A) | PyExit (code : nat) | PyExc.
Arguments PyOk {A} a.
Arguments PyExit {A} code.
Arguments PyExc {A}.

(** The TMDb endpoints the handler uses ([tmdb.Search().movie/tv],
    [tmdb.Movies(id).info()], [tmdb.TV(id).info()],
    [tmdb.TV_Seasons(id, season).info()]), reduced to the fields read. *)
Record tmdb_service := {
  search : bool -> string -> svc (list (string * nat));
  movie_genres : tmdb_result -> svc (list string);
  tv_info : tmdb_result -> svc (string * string);
  season_episodes : tmdb_result -> nat -> svc (list (nat * string))
}.

(** The module-level setting [stop_on_error = True]. *)
Definition stop_on_error : bool := true.

End Py.

(* ------------------------------------------------------------------ *)
(** ** [Handler.get_tmdb_id] and its [functools.lru_cache] *)

Module Resolver.
Import PyStr Py.

(** [title.split("(")[0]] *)
Fixpoint before_paren (s : string) : string :=
  match s with
  | EmptyString => EmptyString
  | String c s' => if Ascii.eqb c "("%char then EmptyString else String c (before_paren s')
  end.

Definition query_of (title : string) : string := strip (before_paren title).

(** [max(results, key=...)]: the first element of greatest key. *)
Definition best_match {A} (key : A -> nat) (x : A) (xs : list A) : A :=
  fold_left (fun cur y => if key cur <? key y then y else cur) xs x.

Section GetTmdbId.
Variable stop : bool.
Variable service : tmdb_service.
(** [Levenshtein.ratio], scaled to a number; only its order is used. *)
Variable ratio : string -> string -> nat.

(** The body of [get_tmdb_id(title, is_movie)], without the cache. *)
Definition get_tmdb_id_body (title : string) (is_movie : bool) : pyres tmdb_result :=
  match search service is_movie (query_of title) with
  | SvcOk (r :: rs) =>
      PyOk (TmdbId (snd (best_match (fun x => ratio (fst x) title) r rs)))
  | SvcOk [] => if stop then PyExit 1 else PyOk NotFound
  | SvcErr => if stop then PyExit 1 else PyOk NotFound
  end.

(** The cache key of a call [get_tmdb_id(title, is_movie=...)]. *)
Definition key : Type := (string * bool)%type.

Definition key_eqb (a b : key) : bool :=
  String.eqb (fst a) (fst b) && Bool.eqb (snd a) (snd b).

Fixpoint lookup (k : key) (c : list (key * tmdb_result)) : option tmdb_result :=
  match c with
  | [] => None
  | (k', v) :: c' => if key_eqb k k' then Some v else lookup k c'
  end.

Definition remove_key (k : key) (c : list (key * tmdb_result)) :=
  filter (fun e => negb (key_eqb k (fst e))) c.

(** [@lru_cache(maxsize=1024)] *)
Definition maxsize : nat := 1024.

(** The resolver's state: the cache, most recently used first, and the log
    of the searches sent to TMDb. *)
Record rstate := { r_cache : list (key * tmdb_result); r_searches : list key }.

(** One call through the cache: a hit moves the entry to the front and
    sends nothing; a miss runs the body (one search) and stores a returned
    value, evicting the least recently used entry when full; a call that
    raises ([SystemExit] included) stores nothing. *)
Definition get_tmdb_id (title : string) (is_movie : bool) (rs : rstate)
  : pyres tmdb_result * rstate :=
  let k := (title, is_movie) in
  match lookup k (r_cache rs) with
  | Some v =>
      (PyOk v, {| r_cache := (k, v) :: remove_key k (r_cache rs);
                  r_searches := r_searches rs |})
  | None =>
      let searches := k :: r_searches rs in
      match get_tmdb_id_body title is_movie with
      | PyOk v =>
          (PyOk v, {| r_cache := firstn maxsize ((k, v) :: r_cache rs);
                      r_searches := searches |})
      | PyExit c => (PyExit c, {| r_cache := r_cache rs; r_searches := searches |})
      | PyExc => (PyExc, {| r_cache := r_cache rs; r_searches := searches |})
      end
  end.

(** A sequence of calls, threading the resolver state. *)
Fixpoint run_calls (calls : list key) (rs : rstate) : list (pyres tmdb_result) * rstate :=
  match calls with
  | [] => ([], rs)
  | (t, m) :: cs =>
      let (r, rs1) := get_tmdb_id t m rs in
      let (rs_out, rs2) := run_calls cs rs1 in
      (r :: rs_out, rs2)
  end.

End GetTmdbId.

Definition count_key (k : key) (l : list key) : nat :=
  length (filter (key_eqb k) l).

Definition empty_rstate : rstate := {| r_cache := []; r_searches := [] |}.

End Resolver.

(* ------------------------------------------------------------------ *)
(** ** Regular-expression helpers of [process_series] *)

Module SeriesStr.
Import PyStr.

(** Characters up to (not including) the first newline: what [.*] covers. *)
Fixpoint line_len (s : string) : nat :=
  match s with
  | EmptyString => 0
  | String c s' => if Ascii.eqb c "010"%char then 0 else S (line_len s')
  end.

(** Length of a lazy [open .*? close] match at the head of [s]. *)
Fixpoint lazy_close (close : ascii) (s : string) : option nat :=
  match s with
  | EmptyString => None
  | String c s' =>
      if Ascii.eqb c close then Some 1
      else if Ascii.eqb c "010"%char then None
      else option_map S (lazy_close close s')
  end.

(** Position after the last [close] on the current line (greedy [.*close]). *)
Fixpoint greedy_close (close : ascii) (s : string) : option nat :=
  match s with
  | EmptyString => None
  | String c s' =>
      if Ascii.eqb c "010"%char then None
      else match greedy_close close s' with
           | Some n => Some (S n)
           | None => if Ascii.eqb c close then Some 1 else None
           end
  end.

Fixpoint run_len (p : ascii -> bool) (s : string) : nat :=
  match s with
  | EmptyString => 0
  | String c s' => if p c then S (run_len p s') else 0
  end.

Fixpoint prefix_ci (p s : string) : bool :=
  match p, s with
  | EmptyString, _ => true
  | String c p', String d s' => Ascii.eqb (to_lower c) (to_lower d) && prefix_ci p' s'
  | String _ _, EmptyString => false
  end.

(** [re.sub(pattern, '', s)] for a pattern given by the length of its match
    at the head of a string (none of the patterns below matches empty). *)
Fixpoint del_matches_fuel (fuel : nat) (m : string -> option nat) (s : string) : string :=
  match fuel with
  | O => s
  | S f =>
      match s with
      | EmptyString => EmptyString
      | String c s' =>
          match m s with
          | Some (S n) => del_matches_fuel f m (str_drop (S n) s)
          | _ => String c (del_matches_fuel f m s')
          end
      end
  end.

Definition del_matches (m : string -> option nat) (s : string) : string :=
  del_matches_fuel (S (String.length s)) m s.

(** The patterns of [clean_directory_name], all under [re.IGNORECASE]. *)
Definition m_season_rest (s : string) : option nat :=        (* S\d{1,2}.* *)
  match s with
  | String c (String d _) =>
      if Ascii.eqb (to_lower c) "s"%char && is_digit d then Some (line_len s) else None
  | _ => None
  end.
Definition m_dots_rest (s : string) : option nat :=          (* \.\.\..* *)
  if prefix "..." s then Some (line_len s) else None.
Definition m_none (s : string) : option nat :=               (* \(None\) *)
  if prefix_ci "(None)" s then Some 6 else None.
Definition m_paren_greedy (s : string) : option nat :=       (* \(.*\) *)
  match s with
  | String c s' => if Ascii.eqb c "("%char then option_map S (greedy_close ")"%char s') else None
  | EmptyString => None
  end.
Definition m_rarbg (s : string) : option nat :=              (* -RARBG *)
  if prefix_ci "-RARBG" s then Some 6 else None.
Definition m_dash_bracket (s : string) : option nat :=       (* -\[.*?\] *)
  if prefix "-[" s then option_map (Nat.add 2) (lazy_close "]"%char (str_drop 2 s))
  else None.
Definition m_lazy (op cl : ascii) (s : string) : option nat :=  (* \[.*?\], \{.*?\} *)
  match s with
  | String c s' => if Ascii.eqb c op then option_map S (lazy_close cl s') else None
  | EmptyString => None
  end.
Definition m_run (p : ascii -> bool) (s : string) : option nat :=  (* \s+, _+, -+ *)
  Some (run_len p s).

Definition clean_directory_name (name : string) : string :=
  let name := del_matches m_season_rest name in
  let name := del_matches m_dots_rest name in
  let name := del_matches m_none name in
  let name := del_matches m_paren_greedy name in
  let name := del_matches m_rarbg name in
  let name := del_matches m_dash_bracket name in
  let name := del_matches (m_lazy "["%char "]"%char) name in
  let name := del_matches (m_lazy "{"%char "}"%char) name in
  let name := del_matches (m_run is_space) name in
  let name := del_matches (m_run (fun c => Ascii.eqb c "_"%char)) name in
  let name := del_matches (m_run (fun c => Ascii.eqb c "-"%char)) name in
  strip name.

(** [re.search(r"\((\d{4})\)", s)]: group 1 of the first match. *)
Fixpoint find_year (s : string) : option string :=
  match s with
  | String "("%char (String a (String b (String c (String d (String ")"%char _))))) =>
      if is_digit a && is_digit b && is_digit c && is_digit d
      then Some (String a (String b (String c (String d EmptyString))))
      else match s with String _ s' => find_year s' | _ => None end
  | String _ s' => find_year s'
  | EmptyString => None
  end.

(** [re.sub(r"[()]", "", s)] *)
Fixpoint remove_parens (s : string) : string :=
  match s with
  | EmptyString => EmptyString
  | String c s' =>
      if Ascii.eqb c "("%char || Ascii.eqb c ")"%char then remove_parens s'
      else String c (remove_parens s')
  end.

(** The local [normalize_dir_name] of [process_series]. *)
Definition normalize_dir_name (name : string) : string :=
  let year_part := match find_year name with Some y => "(" ++ y ++ ")" | None => "" end in
  title (remove_parens name) ++ year_part.

End SeriesStr.

(* ------------------------------------------------------------------ *)
(** ** The filesystem and the two SQLite ledgers *)

Module Store.
Import PyStr.

(** A path as its list of components below the filesystem root. *)
Definition path := list string.

Fixpoint path_eqb (p q : path) : bool :=
  match p, q with
  | [], [] => true
  | a :: p', b :: q' => String.eqb a b && path_eqb p' q'
  | _, _ => false
  end.

Fixpoint split_slash_acc (acc : string) (s : string) : list string :=
  match s with
  | EmptyString => [acc]
  | String c s' =>
      if Ascii.eqb c "/"%char then acc :: split_slash_acc EmptyString s'
      else split_slash_acc (acc ++ String c EmptyString) s'
  end.

(** [p / name]: a name holding ['/'] adds several components. *)
Definition join (p : path) (name : string) : path :=
  app p (filter (fun x => negb (String.eqb x "")) (split_slash_acc "" name)).

(** The directories, regular files and symbolic links (link, target) that
    exist, the directories in which creating an entry raises
    [PermissionError], and the [symlink_map] tables of
    [movies_symlink_map.db] and [series_symlink_map.db]
    (rows [(file_path, symlink_path)] in table order). *)
Record state := {
  st_dirs : list path;
  st_files : list path;
  st_links : list (path * path);
  st_ro : list path;
  db_movies : list (path * path);
  db_series : list (path * path)
}.

Definition mem (p : path) (l : list path) : bool := existsb (path_eqb p) l.

Fixpoint assoc (k : path) (l : list (path * path)) : option path :=
  match l with
  | [] => None
  | (k', v) :: l' => if path_eqb k k' then Some v else assoc k l'
  end.

Definition is_dir (st : state) (p : path) : bool := mem p (st_dirs st).
Definition is_file (st : state) (p : path) : bool := mem p (st_files st).
Definition link_target (st : state) (p : path) : option path := assoc p (st_links st).

(** [Path.is_symlink()] *)
Definition is_symlink (st : state) (p : path) : bool :=
  match link_target st p with Some _ => true | None => false end.

(** [Path.exists()], which follows a link to its target. *)
Definition path_exists (st : state) (p : path) : bool :=
  is_dir st p || is_file st p ||
  match link_target st p with
  | Some t => is_dir st t || is_file st t
  | None => false
  end.

(** Whether anything, a dangling link included, sits at [p]. *)
Definition lexists (st : state) (p : path) : bool :=
  is_dir st p || is_file st p || is_symlink st p.

Definition parent (p : path) : path := removelast p.

Definition last_name (p : path) : string := last p "".

(** [Path.iterdir()]: the names of the entries directly below [d]. *)
Definition child_name (d p : path) : option string :=
  match p with
  | [] => None
  | _ => if path_eqb (parent p) d then Some (last_name p) else None
  end.

Definition iterdir (st : state) (d : path) : list string :=
  let names := fun l => flat_map (fun p => match child_name d p with Some n => [n] | None => [] end) l in
  app (names (st_dirs st)) (app (names (st_files st)) (names (map fst (st_links st)))).

(** Ledger rows: [add_symlink] runs [REPLACE INTO] (the old row with the
    same primary key goes, the new one is appended); [remove_symlink] runs
    [DELETE ... WHERE file_path = ?]. *)
Definition db_delete (k : path) (db : list (path * path)) : list (path * path) :=
  filter (fun r => negb (path_eqb k (fst r))) db.

Definition db_replace (k v : path) (db : list (path * path)) : list (path * path) :=
  app (db_delete k db) [(k, v)].

(** [self.get_symlink(file_path, is_movie)]: the [symlink_path] of the row
    with that key, if any. *)
Definition get_symlink (is_movie : bool) (file_path : path) (st : state) : option path :=
  assoc file_path (if is_movie then db_movies st else db_series st).

Definition set_dirs (st : state) (ds : list path) : state :=
  {| st_dirs := ds; st_files := st_files st; st_links := st_links st; st_ro := st_ro st;
     db_movies := db_movies st; db_series := db_series st |}.
Definition set_links (st : state) (ls : list (path * path)) : state :=
  {| st_dirs := st_dirs st; st_files := st_files st; st_links := ls; st_ro := st_ro st;
     db_movies := db_movies st; db_series := db_series st |}.
Definition set_db (is_movie : bool) (st : state) (db : list (path * path)) : state :=
  {| st_dirs := st_dirs st; st_files := st_files st; st_links := st_links st; st_ro := st_ro st;
     db_movies := if is_movie then db else db_movies st;
     db_series := if is_movie then db_series st else db |}.

Definition db_of (is_movie : bool) (st : state) : list (path * path) :=
  if is_movie then db_movies st else db_series st.

(** [mkdir(parents=True, exist_ok=True)]: every missing ancestor is created
    from the top; a non-directory in the way raises [FileExistsError], a
    read-only parent [PermissionError].  [None] is the exception. *)
Fixpoint mkdir_from (done : path) (rest : list string) (st : state) : option state :=
  match rest with
  | [] => Some st
  | c :: rest' =>
      let q := app done [c] in
      if is_dir st q then mkdir_from q rest' st
      else if lexists st q then None
      else if mem done (st_ro st) then None
      else mkdir_from q rest' (set_dirs st (app (st_dirs st) [q]))
  end.

Definition mkdir_p (p : path) (st : state) : option state := mkdir_from [] p st.

(** [link.symlink_to(target)]; [None] is the [OSError]. *)
Definition symlink_to (link target : path) (st : state) : option state :=
  if lexists st link then None
  else if negb (is_dir st (parent link)) then None
  else if mem (parent link) (st_ro st) then None
  else Some (set_links st (app (st_links st) [(link, target)])).

(** [Path.suffix] of a file name. *)
Fixpoint last_dot (i : nat) (s : string) : option nat :=
  match s with
  | EmptyString => None
  | String c s' =>
      match last_dot (S i) s' with
      | Some j => Some j
      | None => if Ascii.eqb c "."%char then Some i else None
      end
  end.

Definition suffix_of_name (name : string) : string :=
  match last_dot 0 name with
  | Some i =>
      if (0 <? i) && (S i <? String.length name)
      then str_drop i name else ""
  | None => ""
  end.

Definition suffix (p : path) : string := suffix_of_name (last_name p).

End Store.

(* ------------------------------------------------------------------ *)
(** ** The handler's pipeline: [process_movie], [process_series],
       [validate_symlinks] *)

Module Handler.
Import PyStr Py SeriesStr Store.

(** How control leaves a method early: [return], [sys.exit(code)], or an
    exception that propagates to the caller. *)
Inductive ctl := CReturn | CExit (code : nat) | CExc.

Inductive res (A : Type) := Val (a : A) | Ctl (c : ctl).
Arguments Val {A} a.
Arguments Ctl {A} c.

Definition M (A : Type) : Type := state -> res A * state.

Definition ret {A} (a : A) : M A := fun s => (Val a, s).
Definition bind {A B} (m : M A) (f : A -> M B) : M B :=
  fun s => match m s with
           | (Val a, s') => f a s'
           | (Ctl c, s') => (Ctl c, s')
           end.

Declare Scope handler_scope.
Local Notation "x <- m ;; k" := (bind m (fun x => k))
  (at level 61, m at next level, right associativity) : handler_scope.
Local Notation "m ;; k" := (bind m (fun _ => k))
  (at level 61, right associativity) : handler_scope.
Local Open Scope handler_scope.

Definition early_return {A} : M A := fun s => (Ctl CReturn, s).
Definition sys_exit {A} (code : nat) : M A := fun s => (Ctl (CExit code), s).
Definition raise {A} : M A := fun s => (Ctl CExc, s).
Definition get_state : M state := fun s => (Val s, s).

(** A filesystem call that raises on [None]. *)
Definition fs_call (f : state -> option state) : M unit :=
  fun s => match f s with Some s' => (Val tt, s') | None => (Ctl CExc, s) end.

(** [try: f  except OSError: ...]: [true] when [f] succeeded. *)
Definition try_fs (f : state -> option state) : M bool :=
  fun s => match f s with Some s' => (Val true, s') | None => (Val false, s) end.

(** How a method call ends, seen by its caller. *)
Inductive outcome := Returned | Exited (code : nat) | Raised.

Definition run (m : M unit) (s : state) : outcome * state :=
  match m s with
  | (Val _, s') | (Ctl CReturn, s') => (Returned, s')
  | (Ctl (CExit c), s') => (Exited c, s')
  | (Ctl CExc, s') => (Raised, s')
  end.

(** An int field of the [guessit] result that may also be a list. *)
Inductive pyint := PInt (n : nat) | PList (l : list nat).

(** The fields of the [guessit] (or [subliminal_parse]) result read by the
    handler; [None] is a missing key. *)
Record file_info := {
  fi_title : option string;
  fi_series : option string;
  fi_year : option nat;
  fi_season : option pyint;
  fi_episode : option pyint;
  fi_type : option string
}.

(** Python truthiness of the values involved. *)
Definition truthy_str (o : option string) : bool :=
  match o with Some s => negb (String.eqb s "") | None => false end.
Definition truthy_nat (o : option nat) : bool :=
  match o with Some n => negb (Nat.eqb n 0) | None => false end.
Definition truthy_pyint (o : option pyint) : bool :=
  match o with
  | Some (PInt n) => negb (Nat.eqb n 0)
  | Some (PList l) => match l with [] => false | _ => true end
  | None => false
  end.

(** [a or b] on two optional strings. *)
Definition py_or (a b : option string) : option string :=
  if truthy_str a then a else b.

(** [str(x)] of [None] or a string. *)
Definition str_opt (o : option string) : string :=
  match o with Some s => s | None => "None" end.

(** [f"tmdb-{tmdb_id}"] *)
Definition tmdb_str (r : tmdb_result) : string :=
  match r with TmdbId n => str_of_nat n | NotFound => "N/A" end.

Section Pipeline.
Variable stop : bool.
Variable service : tmdb_service.
(** The [titlecase] package. *)
Variable titlecase : string -> string.
Variable movies_target_directory series_target_directory : path.

(** [titlecase(x)]; [titlecase(None)] raises. *)
Definition titlecase_opt (o : option string) : M string :=
  match o with Some s => ret (titlecase s) | None => raise end.

(** [self.get_tmdb_movie_genres(tmdb_id)] *)
Definition get_tmdb_movie_genres (id : tmdb_result) : M (list string) :=
  match movie_genres service id with
  | SvcOk gs => ret gs
  | SvcErr => if stop then sys_exit 1 else ret []
  end.

(** [s.split('-')[0]] *)
Fixpoint before_dash (d : string) : string :=
  match d with
  | EmptyString => EmptyString
  | String c d' => if Ascii.eqb c "-"%char then EmptyString else String c (before_dash d')
  end.

(** [self.get_tmdb_series_title_and_year(tmdb_id)] *)
Definition get_tmdb_series_title_and_year (id : tmdb_result)
  : M (option string * option string) :=
  match tv_info service id with
  | SvcOk (name, first_air_date) => ret (Some name, Some (before_dash first_air_date))
  | SvcErr => if stop then sys_exit 1 else ret (None, None)
  end.

Fixpoint find_episode (n : nat) (eps : list (nat * string)) : option string :=
  match eps with
  | [] => None
  | (m, name) :: eps' => if Nat.eqb m n then Some name else find_episode n eps'
  end.

(** [self.get_tmdb_episode_title(series_id, season_number, episode_number)] *)
Definition get_tmdb_episode_title (id : tmdb_result) (season episode : nat)
  : M (option string) :=
  match season_episodes service id season with
  | SvcOk eps => ret (find_episode episode eps)
  | SvcErr => if stop then sys_exit 1 else ret None
  end.

(** [self.get_symlink(file_path, is_movie)] followed by [.is_symlink()]. *)
Definition has_recorded_symlink (is_movie : bool) (file_path : path) : M bool :=
  fun s => match assoc file_path (db_of is_movie s) with
           | Some l => (Val (is_symlink s l), s)
           | None => (Val false, s)
           end.

(** [self.add_symlink(file_path, symlink_path, is_movie)] *)
Definition add_symlink (is_movie : bool) (file_path symlink_path : path) : M unit :=
  fun s => (Val tt, set_db is_movie s (db_replace file_path symlink_path (db_of is_movie s))).

(** [self.remove_symlink(file_path, is_movie)] *)
Definition remove_symlink (is_movie : bool) (file_path : path) : M unit :=
  fun s => (Val tt, set_db is_movie s (db_delete file_path (db_of is_movie s))).

(** [movie_dir.exists() and any(movie_dir.iterdir())]; [iterdir] on an
    existing non-directory raises [NotADirectoryError]. *)
Definition dir_nonempty (d : path) : M bool :=
  fun s => if path_exists s d then
             if is_dir s d then
               (Val (match iterdir s d with [] => false | _ => true end), s)
             else (Ctl CExc, s)
           else (Val false, s).

(** [[d.name for d in dir.iterdir()]]; a missing directory raises. *)
Definition list_dir (d : path) : M (list string) :=
  fun s => if is_dir s d then (Val (iterdir s d), s) else (Ctl CExc, s).

(** The [try: symlink_to / except OSError / else: add_symlink] tail. *)
Definition link_and_record (is_movie : bool) (file_path symlink_path : path) : M unit :=
  ok <- try_fs (symlink_to symlink_path file_path) ;;
  if ok then add_symlink is_movie file_path symlink_path
  else if stop then sys_exit 1 else ret tt.

(** The movie directory name [f"{title} ({year}) {{{formatted_tmdb_id}}}"]. *)
Definition movie_dir_name (title : string) (year : nat) (tmdb_id : tmdb_result) : string :=
  let formatted_tmdb_id :=
    match tmdb_id with NotFound => "" | _ => "tmdb-" ++ tmdb_str tmdb_id end in
  title ++ " (" ++ str_of_nat year ++ ") {" ++ formatted_tmdb_id ++ "}".

(** The bucket below [movies_target_directory]. *)
Definition movie_bucket (year : nat) (genres : list string) : string :=
  if Nat.eqb year 2024 then "2024"
  else match genres with g :: _ => g | [] => "Uncategorized" end.

(** [Handler.process_movie(file_path, file_info, tmdb_id)] *)
Definition process_movie (file_path : path) (fi : file_info) (tmdb_id : tmdb_result) : M unit :=
  title <- titlecase_opt (fi_title fi) ;;
  let year := fi_year fi in
  linked <- has_recorded_symlink true file_path ;;
  if linked then early_return else
  if negb (truthy_str (Some title)) || negb (truthy_nat year) then early_return else
  let y := match year with Some y => y | None => 0 end in
  genres <- get_tmdb_movie_genres tmdb_id ;;
  let movie_dir :=
    join (join movies_target_directory (movie_bucket y genres)) (movie_dir_name title y tmdb_id) in
  full <- dir_nonempty movie_dir ;;
  if full then early_return else
  fs_call (mkdir_p movie_dir) ;;
  let movie_file_name := title ++ suffix file_path in
  let symlink_path := join movie_dir movie_file_name in
  link_and_record true file_path symlink_path.

(** [season_number[0]] when a list (the list is non-empty here). *)
Definition first_int (o : option pyint) : nat :=
  match o with
  | Some (PInt n) => n
  | Some (PList (n :: _)) => n
  | _ => 0
  end.

(** The collision loop [while True: ...] of [process_series]; [fuel] bounds
    the counter (the loop stops at counter 2, see [pick_series_dir_counter_two]). *)
Fixpoint pick_series_dir_name (fuel counter : nat) (series_title : string)
    (year : option string) (taken : list string) : string :=
  let name :=
    if 1 <? counter
    then series_title ++ " (" ++ str_opt year ++ ") (" ++ str_of_nat counter ++ ")"
    else series_title in
  match fuel with
  | O => name
  | S f =>
      if existsb (String.eqb (normalize_dir_name name)) taken
      then pick_series_dir_name f (S counter) series_title year taken
      else name
  end.

(** [file_info.get('type') == 'movie'] *)
Definition is_type_movie (fi : file_info) : bool :=
  match fi_type fi with Some ty => String.eqb ty "movie" | None => false end.

(** [Handler.process_series(file_path, file_info, tmdb_id)] *)
Definition process_series (file_path : path) (fi : file_info) (tmdb_id : tmdb_result) : M unit :=
  series_title <- titlecase_opt (py_or (fi_title fi) (fi_series fi)) ;;
  let season_number := fi_season fi in
  let episode_number := fi_episode fi in
  (if is_type_movie fi then early_return else ret tt) ;;
  let series_title :=
    if truthy_str (Some series_title) then series_title
    else clean_directory_name (last_name (parent file_path)) in
  let year := find_year series_title in
  linked <- has_recorded_symlink false file_path ;;
  if linked then early_return else
  if negb (truthy_str (Some series_title) && truthy_pyint season_number
           && truthy_pyint episode_number)
  then (if stop then sys_exit 1 else early_return) else
  let season_number := first_int season_number in
  let episode_number := first_int episode_number in
  episode_title <- get_tmdb_episode_title tmdb_id season_number episode_number ;;
  let episode_title := match py_or episode_title None with
                       | Some t => t | None => "Unknown Title" end in
  let series_file_name :=
    series_title ++ " - s" ++ fmt02 season_number ++ "e" ++ fmt02 episode_number
    ++ " - " ++ episode_title ++ suffix file_path in
  names <- list_dir series_target_directory ;;
  let existing_series_dirs :=
    filter (fun d => String.eqb (normalize_dir_name d) (normalize_dir_name series_title)) names in
  series_dir <-
    (match existing_series_dirs with
     | _ :: _ =>
         let taken := map normalize_dir_name existing_series_dirs in
         ret (join series_target_directory
                (pick_series_dir_name (S (length taken)) 1 series_title year taken))
     | [] =>
         match tmdb_id with
         | TmdbId _ =>
             let formatted_tmdb_id := "tmdb-" ++ tmdb_str tmdb_id in
             ty <- get_tmdb_series_title_and_year tmdb_id ;;
             let series_title' := if truthy_str (fst ty) then str_opt (fst ty) else series_title in
             let year' := if truthy_str (snd ty) then snd ty else year in
             let series_dir_name :=
               if truthy_str year'
               then series_title' ++ " (" ++ str_opt year' ++ ") {" ++ formatted_tmdb_id ++ "}"
               else series_title' ++ " {" ++ formatted_tmdb_id ++ "}" in
             ret (join series_target_directory series_dir_name)
         | NotFound =>
             let series_dir_name :=
               if truthy_str year then series_title ++ " (" ++ str_opt year ++ ")"
               else series_title in
             ret (join series_target_directory series_dir_name)
         end
     end) ;;
  fs_call (mkdir_p series_dir) ;;
  let season_dir := join series_dir ("Season " ++ fmt02 season_number) in
  fs_call (mkdir_p season_dir) ;;
  files <- list_dir season_dir ;;
  let existing_season_files :=
    filter (fun f => String.eqb (normalize_dir_name f) (normalize_dir_name series_file_name)) files in
  match existing_season_files with
  | _ :: _ => early_return
  | [] =>
      let symlink_path := join season_dir series_file_name in
      link_and_record false file_path symlink_path
  end.

(** The rest of [Handler.process]: its watch directories, the text-matching
    libraries it calls, and the similarity ratio of [get_tmdb_id]. *)
Variable movies_watch_directory series_watch_directory : path.
(** [self.preprocess_file_path(file_path)]: regex rewriting of the name; it
    has no effect and cannot raise, and its result only feeds the parsers. *)
Variable preprocess_file_path : path -> string.
(** [guessit(name)] and [self.subliminal_parse(name)]; [SvcErr] is an
    exception raised by the library. *)
Variable guessit subliminal_parse : string -> svc file_info.
Variable ratio : string -> string -> nat.

(** [file_path.suffix in {'.mp4', '.mkv', '.avi', '.m4v', '.mov'}] *)
Definition video_suffixes : list string := [".mp4"; ".mkv"; ".avi"; ".m4v"; ".mov"].

(** [Handler.is_extras_or_deleted(file_path)] *)
Definition extras_keywords : list string :=
  ["extras"; "deleted scenes"; "deleted"; "bonus"; "featurette"; "behind the scenes"].

Definition is_extras_or_deleted (file_path : path) : bool :=
  let file_name := lower (last_name file_path) in
  existsb (fun keyword => contains keyword file_name) extras_keywords.

(** A library call whose exception propagates. *)
Definition svc_call {A} (r : svc A) : M A :=
  match r with SvcOk a => ret a | SvcErr => raise end.

(** The value of a [self.get_tmdb_id(...)] call, its [sys.exit] included
    (its cache is left out here: [process] never gets to this call). *)
Definition py_call {A} (r : pyres A) : M A :=
  match r with PyOk a => ret a | PyExit c => sys_exit c | PyExc => raise end.

(** [file_path.startswith(d)] on the [pathlib.Path] that [on_created] and
    [process_files_in_directory] pass: [Path] has no [startswith] attribute,
    so the lookup raises [AttributeError]. *)
Definition path_startswith (file_path d : path) : M bool := raise.

(** [try: body  except Exception: ... if stop_on_error: sys.exit(1)];
    [SystemExit] is not an [Exception] and passes through. *)
Definition try_except_exit (body : M unit) : M unit :=
  fun s => match body s with
           | (Ctl CExc, s') => (if stop then sys_exit 1 else ret tt) s'
           | r => r
           end.

(** [Handler.process(file_path)]; [clean_file_name] and the
    [cleaned_file_path] built from it are computed and never used. *)
Definition process (file_path : path) : M unit :=
  if negb (existsb (String.eqb (suffix file_path)) video_suffixes) then ret tt else
  try_except_exit (
    if is_extras_or_deleted file_path then early_return else
    let preprocessed_file_name := preprocess_file_path file_path in
    file_info <- svc_call (guessit preprocessed_file_name) ;;
    file_info <-
      (if negb (truthy_str (fi_title file_info))
       then svc_call (subliminal_parse preprocessed_file_name)
       else ret file_info) ;;
    if negb (truthy_str (fi_title file_info)) then early_return else
    let original_title := match fi_title file_info with Some t => t | None => "" end in
    in_movies <- path_startswith file_path movies_watch_directory ;;
    if in_movies then
      id_from_api <- py_call (Resolver.get_tmdb_id_body stop service ratio original_title true) ;;
      process_movie file_path file_info id_from_api
    else
    in_series <- path_startswith file_path series_watch_directory ;;
    if in_series then
      id_from_api <- py_call (Resolver.get_tmdb_id_body stop service ratio original_title false) ;;
      process_series file_path file_info id_from_api
    else if stop then sys_exit 1 else early_return).

End Pipeline.

(** [Handler.validate_symlinks]: each table is read whole first, then every
    row whose link is missing or is not a symlink is deleted by key. *)
Definition row_valid (st : state) (row : path * path) : bool :=
  path_exists st (snd row) && is_symlink st (snd row).

(** The body of [for file_path, symlink_path in rows]. *)
Definition validate_row (is_movie : bool) (s : state) (row : path * path) : state :=
  if row_valid s row then s
  else set_db is_movie s (db_delete (fst row) (db_of is_movie s)).

Definition validate (is_movie : bool) (st : state) : state :=
  let rows := db_of is_movie st in
  fold_left (validate_row is_movie) rows st.

Definition validate_symlinks (st : state) : state :=
  validate false (validate true st).

End Handler.

(* ------------------------------------------------------------------ *)
(** ** [Cinesync.py]: the older single-file variant of the handler

    It shares [normalize_dir_name], the collision loop and the
    [clean_file_name] steps with [rd-sym.py]; it keeps one JSON
    [symlink_map] for movies and series, has no TMDb cache, never calls
    [sys.exit] in the handler, and works on path strings. *)

Module Cinesync.
Import PyStr Py SeriesStr Store Handler.

(** A path as the string [os.path] works on: ["/a/b"] for [["a"; "b"]]. *)
Fixpoint path_str (p : path) : string :=
  match p with
  | [] => EmptyString
  | c :: p' => "/" ++ c ++ path_str p'
  end.

(** [s.endswith(suf)] *)
Definition ends_with (suf s : string) : bool :=
  String.eqb (str_drop (String.length s - String.length suf) s) suf.

(** [os.path.splitext(file_path)[1]]: from the last dot of the base name,
    when a character other than a dot comes before it. *)
Definition splitext_ext (p : path) : string :=
  let name := last_name p in
  match last_dot 0 name with
  | Some i =>
      if existsb (fun c => negb (Ascii.eqb c "."%char)) (list_ascii_of_string (str_take i name))
      then str_drop i name else ""
  | None => ""
  end.

(** [Handler.similarity(a, b)]:
    [sum(1 for x, y in zip(a, b) if x == y) / max(len(a), len(b))], as the
    fraction (matches, max length); [None] is the [ZeroDivisionError] of two
    empty strings. *)
Fixpoint zip_matches (a b : string) : nat :=
  match a, b with
  | String x a', String y b' => (if Ascii.eqb x y then 1 else 0) + zip_matches a' b'
  | _, _ => 0
  end.

Definition similarity (a b : string) : option (nat * nat) :=
  let d := Nat.max (String.length a) (String.length b) in
  if d =? 0 then None else Some (zip_matches a b, d).

(** [<] on the quotients (denominators are positive).  Exact fractions stand
    for the float quotients: for strings shorter than 2^26 characters two
    distinct quotients stay distinct and in the same order once rounded. *)
Definition frac_lt (x y : nat * nat) : bool := fst x * snd y <? fst y * snd x.

(** [max(results, key=lambda x: self.similarity(x[...], title))]: the first
    result of greatest key; an exception of the key function propagates. *)
Fixpoint max_by_similarity (title : string) (cur : (string * nat) * (nat * nat))
    (xs : list (string * nat)) : option (string * nat) :=
  match xs with
  | [] => Some (fst cur)
  | y :: ys =>
      match similarity (fst y) title with
      | None => None
      | Some k =>
          if frac_lt (snd cur) k then max_by_similarity title (y, k) ys
          else max_by_similarity title cur ys
      end
  end.

(** [title.split(':', 1)[1]]: the text after the first colon. *)
Fixpoint after_colon (s : string) : string :=
  match s with
  | EmptyString => EmptyString
  | String c s' => if Ascii.eqb c ":"%char then s' else after_colon s'
  end.

(** The query of [get_tmdb_id(title, is_movie)]; [None] is the exception
    raised on a [None] title ([AttributeError] or [TypeError]) or by
    [title[0]] on an empty series title ([IndexError]). *)
Definition tmdb_query (title : option string) (is_movie : bool) : option string :=
  match title with
  | None => None
  | Some t =>
      if is_movie then Some (strip (Resolver.before_paren t))
      else match t with
           | EmptyString => None
           | String c _ =>
               if is_digit c && contains ":" t then Some (strip (after_colon t)) else Some t
           end
  end.

Section Script.
Variable service : tmdb_service.
Variable movies_watch_directory movies_target_directory : path.
Variable series_watch_directory series_target_directory : path.
(** [guessit(cleaned_file_path)]; [SvcErr] is an exception it raises. *)
Variable guessit : string -> svc file_info.

(** [Handler.get_tmdb_id(title, is_movie)]: every exception gives ["N/A"]. *)
Definition get_tmdb_id (title : option string) (is_movie : bool) : tmdb_result :=
  match title, tmdb_query title is_movie with
  | Some t, Some q =>
      match search service is_movie q with
      | SvcOk (r :: rs) =>
          match similarity (fst r) t with
          | Some k =>
              match max_by_similarity t (r, k) rs with
              | Some best => TmdbId (snd best)
              | None => NotFound
              end
          | None => NotFound
          end
      | SvcOk [] | SvcErr => NotFound
      end
  | _, _ => NotFound
  end.

(** The handler's state: the filesystem (its two ledger fields are not used
    by this script) and [self.symlink_map], keyed by source path, in
    insertion order. *)
Record cstate := { cs_fs : state; cs_map : list (path * path) }.

Definition CM (A : Type) : Type := cstate -> res A * cstate.

Definition cret {A} (a : A) : CM A := fun s => (Val a, s).
Definition cbind {A B} (m : CM A) (f : A -> CM B) : CM B :=
  fun s => match m s with
           | (Val a, s') => f a s'
           | (Ctl c, s') => (Ctl c, s')
           end.

Local Notation "x <- m ;; k" := (cbind m (fun x => k))
  (at level 61, m at next level, right associativity).
Local Notation "m ;; k" := (cbind m (fun _ => k))
  (at level 61, right associativity).

Definition creturn {A} : CM A := fun s => (Ctl CReturn, s).
Definition craise {A} : CM A := fun s => (Ctl CExc, s).

(** A filesystem step of [Handler]'s monad, run on the filesystem part. *)
Definition lift {A} (m : M A) : CM A :=
  fun s => let (r, fs) := m (cs_fs s) in (r, {| cs_fs := fs; cs_map := cs_map s |}).

(** [self.symlink_map[file_path] = symlink_path]: a new key goes last, an
    existing key keeps its place. *)
Fixpoint map_set (k v : path) (m : list (path * path)) : list (path * path) :=
  match m with
  | [] => [(k, v)]
  | (k', v') :: m' => if path_eqb k k' then (k, v) :: m' else (k', v') :: map_set k v m'
  end.

(** [self.symlink_map_file] *)
Definition symlink_map_file : path := join movies_target_directory "symlink_map.json".

(** [open(p, 'w')]: a symbolic link in the place of [p] is followed (one
    level); an existing regular file is truncated; otherwise a new file is
    created, which raises unless the parent is a writable directory; an
    existing directory raises. *)
Definition open_w (p : path) (st : state) : option state :=
  let p := match link_target st p with Some t => t | None => p end in
  if is_file st p then Some st
  else if lexists st p then None
  else if negb (is_dir st (parent p)) then None
  else if mem (parent p) (st_ro st) then None
  else Some {| st_dirs := st_dirs st; st_files := app (st_files st) [p];
               st_links := st_links st; st_ro := st_ro st;
               db_movies := db_movies st; db_series := db_series st |}.

(** [self.save_symlink_map()] *)
Definition save_symlink_map : CM unit := lift (fs_call (open_w symlink_map_file)).

(** [existing_symlink = self.symlink_map.get(file_path)] and
    [existing_symlink and os.path.islink(existing_symlink)]. *)
Definition has_mapped_symlink (file_path : path) : CM bool :=
  fun s => match assoc file_path (cs_map s) with
           | Some l => (Val (is_symlink (cs_fs s) l), s)
           | None => (Val false, s)
           end.

(** The [try: os.symlink / except OSError / else: record and save] tail. *)
Definition link_and_save (file_path symlink_path : path) : CM unit :=
  ok <- lift (try_fs (symlink_to symlink_path file_path)) ;;
  if ok then
    (fun s => (Val tt, {| cs_fs := cs_fs s;
                          cs_map := map_set file_path symlink_path (cs_map s) |})) ;;
    save_symlink_map
  else cret tt.

(** [Handler.process_movie(file_path, file_info, tmdb_id)] *)
Definition process_movie (file_path : path) (fi : file_info) (tmdb_id : tmdb_result) : CM unit :=
  let title := fi_title fi in
  let year := fi_year fi in
  linked <- has_mapped_symlink file_path ;;
  if linked then creturn else
  if negb (truthy_str title) then creturn else
  let t := match title with Some t => t | None => "" end in
  let formatted_tmdb_id :=
    match tmdb_id with NotFound => "" | _ => "tmdb-" ++ tmdb_str tmdb_id end in
  let movie_dir_name :=
    if truthy_nat year
    then t ++ " (" ++ str_of_nat (match year with Some y => y | None => 0 end) ++ ") {"
         ++ formatted_tmdb_id ++ "}"
    else t ++ " {" ++ formatted_tmdb_id ++ "}" in
  let movie_dir := join movies_target_directory movie_dir_name in
  full <- lift (dir_nonempty movie_dir) ;;
  if full then creturn else
  lift (fs_call (mkdir_p movie_dir)) ;;
  let movie_file_name := t ++ splitext_ext file_path in
  let symlink_path := join movie_dir movie_file_name in
  link_and_save file_path symlink_path.

(** [f"{n:02d}"] of a [guessit] field; a list raises [TypeError]. *)
Definition fmt_int (o : option pyint) : CM string :=
  match o with Some (PInt n) => cret (fmt02 n) | _ => craise end.

(** [Handler.process_series(file_path, file_info, tmdb_id)].  [re.search] on
    a [None] title raises [TypeError], which [except AttributeError] does not
    catch; with no matching directory and [tmdb_id == "N/A"], [series_dir] is
    never assigned and [os.makedirs(series_dir)] raises [UnboundLocalError]. *)
Definition process_series (file_path : path) (fi : file_info) (tmdb_id : tmdb_result) : CM unit :=
  let series_title := py_or (fi_title fi) (fi_series fi) in
  let season_number := fi_season fi in
  let episode_number := fi_episode fi in
  year <- (match series_title with Some t => cret (find_year t) | None => craise end) ;;
  linked <- has_mapped_symlink file_path ;;
  if linked then creturn else
  if negb (truthy_str series_title && truthy_pyint season_number
           && truthy_pyint episode_number) then creturn else
  let t := match series_title with Some t => t | None => "" end in
  s02 <- fmt_int season_number ;;
  e02 <- fmt_int episode_number ;;
  let series_file_name := t ++ " - S" ++ s02 ++ "E" ++ e02 ++ splitext_ext file_path in
  names <- lift (list_dir series_target_directory) ;;
  let existing_series_dirs :=
    filter (fun d => String.eqb (normalize_dir_name d) (normalize_dir_name t)) names in
  series_dir <-
    (match existing_series_dirs with
     | _ :: _ =>
         let taken := map normalize_dir_name existing_series_dirs in
         cret (join series_target_directory
                 (pick_series_dir_name (S (length taken)) 1 t year taken))
     | [] =>
         match tmdb_id with
         | TmdbId _ =>
             let formatted_tmdb_id := "tmdb-" ++ tmdb_str tmdb_id in
             let series_dir_name :=
               if truthy_str year
               then t ++ " (" ++ str_opt year ++ ") {" ++ formatted_tmdb_id ++ "}"
               else t ++ " {" ++ formatted_tmdb_id ++ "}" in
             cret (join series_target_directory series_dir_name)
         | NotFound => craise
         end
     end) ;;
  lift (fs_call (mkdir_p series_dir)) ;;
  s02' <- fmt_int season_number ;;
  let season_dir := join series_dir ("Season " ++ s02') in
  lift (fs_call (mkdir_p season_dir)) ;;
  files <- lift (list_dir season_dir) ;;
  let existing_season_files :=
    filter (fun f => String.eqb (normalize_dir_name f) (normalize_dir_name series_file_name)) files in
  match existing_season_files with
  | _ :: _ => creturn
  | [] => link_and_save file_path (join season_dir series_file_name)
  end.

(** The [while file_info.get('title', '').startswith(special_chars_tuple)]
    loop of [process]: leading ['#'] and digits are dropped. *)
Fixpoint strip_special (t : string) : string :=
  match t with
  | EmptyString => EmptyString
  | String c t' => if Ascii.eqb c "#"%char || is_digit c then strip_special t' else t
  end.

Definition with_title (fi : file_info) (t : option string) : file_info :=
  {| fi_title := t; fi_series := fi_series fi; fi_year := fi_year fi;
     fi_season := fi_season fi; fi_episode := fi_episode fi; fi_type := fi_type fi |}.

(** [try: ... except Exception: logger.error(...)], and a thread-pool task
    whose exception [future.result()] re-raises into the same kind of
    handler: an exception is logged, the state it reached stays. *)
Definition logged (m : CM unit) : CM unit :=
  fun s => (Val tt, snd (m s)).

(** [Handler.process(file_path)] for a file path string [path_str file_path]. *)
Definition process (file_path : path) : CM unit :=
  let name := last_name file_path in
  if negb (ends_with ".mp4" (path_str file_path) || ends_with ".mkv" (path_str file_path))
  then cret tt else
  logged (
    let cleaned_file_name := Clean.clean_file_name_in Clean.words_to_remove name in
    let cleaned_file_path := path_str (parent file_path) ++ "/" ++ cleaned_file_name in
    file_info <- (match guessit cleaned_file_path with SvcOk fi => cret fi | SvcErr => craise end) ;;
    let original_title := fi_title file_info in
    if prefix (path_str movies_watch_directory) (path_str file_path) then
      let id_from_api := get_tmdb_id original_title true in
      let file_info :=
        match id_from_api, fi_title file_info with
        | NotFound, Some t => with_title file_info (Some (strip_special t))
        | _, _ => file_info
        end in
      let id_from_api :=
        match id_from_api with
        | NotFound => get_tmdb_id (fi_title file_info) true
        | _ => id_from_api
        end in
      logged (process_movie file_path file_info id_from_api)
    else if prefix (path_str series_watch_directory) (path_str file_path) then
      logged (process_series file_path file_info (get_tmdb_id original_title false))
    else creturn).

End Script.

End Cinesync.

(* ------------------------------------------------------------------ *)
(** ** Concrete inputs used by the examples below *)

Module Fixtures.
Import PyStr Py Resolver Store Handler.

(** A service whose every search succeeds with one candidate. *)
Definition one_hit_service : tmdb_service := {|
  search := fun _ _ => SvcOk [("Heat", 949)];
  movie_genres := fun _ => SvcErr;
  tv_info := fun _ => SvcErr;
  season_episodes := fun _ _ => SvcErr
|}.

(** One call for ["Heat"], then 1024 calls for other titles, then ["Heat"]
    again. *)
Definition eviction_calls : list key :=
  ("Heat", true) :: map (fun i => ("t" ++ str_of_nat i, true)) (seq 1 1024) ++ [("Heat", true)].

Definition cached_heat : rstate :=
  {| r_cache := [(("Heat", true), TmdbId 949)]; r_searches := [("Heat", true)] |}.

(** A service whose searches fail (network or HTTP error). *)
Definition failing_service : tmdb_service := {|
  search := fun _ _ => SvcErr;
  movie_genres := fun _ => SvcErr;
  tv_info := fun _ => SvcErr;
  season_episodes := fun _ _ => SvcErr
|}.

(** A stand-in for the [titlecase] package: [str.title()], which agrees
    with it on the titles used here. *)
Definition tc_title (s : string) : string := title s.

(** A service that knows movie 12345 (genres Action, Thriller), fails on
    every other movie id and on series lookups, and returns seasons without
    episode entries. *)
Definition svc_lib : tmdb_service := {|
  search := fun _ _ => SvcOk [];
  movie_genres := fun i =>
    if tmdb_result_eqb i (TmdbId 12345) then SvcOk ["Action"; "Thriller"] else SvcErr;
  tv_info := fun _ => SvcErr;
  season_episodes := fun _ _ => SvcOk []
|}.

Definition movie_root : path := ["lib"; "movies"].
Definition series_root : path := ["lib"; "shows"].
Definition src_movie : path := ["pool"; "movies"; "Some.Movie.2021.1080p.BluRay.x264-GROUP.mkv"].
Definition src_e02 : path := ["pool"; "shows"; "show.s01e02.mkv"].
Definition src_e03 : path := ["pool"; "shows"; "show.s01e03.mkv"].

(** The watched pools and empty target roots (the series root holds an
    unrelated show). *)
Definition st_lib : state := {|
  st_dirs := [["pool"]; ["pool"; "movies"]; ["pool"; "shows"]; ["lib"]; movie_root;
              series_root; app series_root ["Other"]];
  st_files := [src_movie; src_e02; src_e03];
  st_links := []; st_ro := []; db_movies := []; db_series := []
|}.

(** [st_lib] after episode 2 of ["Show"] was linked. *)
Definition st_show : state := {|
  st_dirs := app (st_dirs st_lib) [app series_root ["Show"]; app series_root ["Show"; "Season 01"]];
  st_files := st_files st_lib;
  st_links := [(app series_root ["Show"; "Season 01"; "Show - s01e02 - Unknown Title.mkv"], src_e02)];
  st_ro := [];
  db_movies := [];
  db_series := [(src_e02, app series_root ["Show"; "Season 01"; "Show - s01e02 - Unknown Title.mkv"])]
|}.

(** [st_lib] where the movie directory of [fi_movie] already exists, empty,
    and refuses new entries; on the series side, a ["Show"] directory and the
    directory ["Show (None) (2)"] the handler picks next to it, whose
    ["Season 01"] refuses new entries. *)
Definition st_readonly : state := {|
  st_dirs := app (st_dirs st_lib)
             [app movie_root ["Action"]; app movie_root ["Action"; "Some Movie (2021) {tmdb-12345}"];
              app series_root ["Show"]; app series_root ["Show (None) (2)"];
              app series_root ["Show (None) (2)"; "Season 01"]];
  st_files := st_files st_lib;
  st_links := [];
  st_ro := [app movie_root ["Action"; "Some Movie (2021) {tmdb-12345}"];
            app series_root ["Show (None) (2)"; "Season 01"]];
  db_movies := []; db_series := []
|}.

(** [st_show] with a movie row whose link was removed by hand. *)
Definition st_stale : state := {|
  st_dirs := st_dirs st_show; st_files := st_files st_show; st_links := st_links st_show;
  st_ro := [];
  db_movies := [(src_movie, app movie_root ["Uncategorized"; "Some Movie (2021) {}"; "Some Movie.mkv"])];
  db_series := db_series st_show
|}.

(** [guessit] results for the three sources. *)
Definition fi_movie : file_info := {|
  fi_title := Some "Some Movie"; fi_series := None; fi_year := Some 2021;
  fi_season := None; fi_episode := None; fi_type := Some "movie" |}.
Definition fi_e02 : file_info := {|
  fi_title := Some "show"; fi_series := None; fi_year := None;
  fi_season := Some (PInt 1); fi_episode := Some (PInt 2); fi_type := Some "episode" |}.
Definition fi_e03 : file_info := {|
  fi_title := Some "show"; fi_series := None; fi_year := None;
  fi_season := Some (PInt 1); fi_episode := Some (PInt 3); fi_type := Some "episode" |}.

(** A service whose searches return a weaker candidate, then two candidates
    named ["Heat"]; and a similarity ratio that only tells equal names. *)
Definition multi_hit_service : tmdb_service := {|
  search := fun _ _ => SvcOk [("Heat 2", 1); ("Heat", 949); ("Heat", 950)];
  movie_genres := fun _ => SvcErr;
  tv_info := fun _ => SvcErr;
  season_episodes := fun _ _ => SvcErr
|}.

Definition eq_ratio (a b : string) : nat := if String.eqb a b then 2 else 0.

(** [Cinesync.py]'s handler on [st_lib], with an empty [symlink_map]. *)
Definition cs_lib : Cinesync.cstate := {| Cinesync.cs_fs := st_lib; Cinesync.cs_map := [] |}.

(** A movie whose title is a number, and a movie in a directory
    ["pool/movies2"] next to the watched ["pool/movies"]. *)
Definition src_1917 : path := ["pool"; "movies"; "1917.2019.mkv"].
Definition fi_1917 : file_info := {|
  fi_title := Some "1917"; fi_series := None; fi_year := Some 2019;
  fi_season := None; fi_episode := None; fi_type := Some "movie" |}.

End Fixtures.

(* ------------------------------------------------------------------ *)
(** ** Effect classes of handler computations *)

Module Frames.
Import Store Handler.

(** [s'] has the links and ledgers of [s] (directories may differ). *)
Definition frame (s s' : state) : Prop :=
  st_links s' = st_links s /\ db_movies s' = db_movies s /\ db_series s' = db_series s.

(** [s'] is [s] plus one new link [l -> src], recorded for [src] in the
    ledger of the given kind. *)
Definition linked_once (is_movie : bool) (src : path) (s s' : state) : Prop :=
  exists l, link_target s l = None /\
            st_links s' = app (st_links s) [(l, src)] /\
            db_of is_movie s' = db_replace src l (db_of is_movie s) /\
            db_of (negb is_movie) s' = db_of (negb is_movie) s.

Definition Frame {A} (m : M A) : Prop := forall s, frame s (snd (m s)).

Definition Good (is_movie : bool) (src : path) (m : M unit) : Prop :=
  forall s, frame s (snd (m s)) \/ linked_once is_movie src s (snd (m s)).

(** [s'] has every directory of [s], and each directory or link it adds
    lies on the way to [q] or below it. *)
Definition confined (q : path) (s s' : state) : Prop :=
  (forall d, In d (st_dirs s) -> In d (st_dirs s')) /\
  (forall d, In d (st_dirs s') -> ~ In d (st_dirs s) -> exists r, app d r = q) /\
  (forall l t, In (l, t) (st_links s') -> ~ In (l, t) (st_links s) -> exists r, l = app q r).

Definition Confined {A} (q : path) (m : M A) : Prop := forall s, confined q s (snd (m s)).

(** [s'] agrees with [s] on everything but the ledger of the given kind. *)
Definition same (b : bool) (s s' : state) : Prop :=
  st_dirs s' = st_dirs s /\ st_files s' = st_files s /\ st_links s' = st_links s /\
  st_ro s' = st_ro s /\ db_of (negb b) s' = db_of (negb b) s.

End Frames.

(* ================================================================== *)
(** * Properties *)

(* ------------------------------------------------------------------ *)
(** ** Name normalisation ([clean_file_name]) *)

Module CleanFacts.
Import PyStr Clean.

Definition W := words_to_remove.

(** Facts about the token list, checked by evaluation: no token holds a
    ['.'] or a ['['], none ends in ['.'], ['-'], [' '] or whitespace, and no
    token occurs inside another one. *)
Lemma tokens_shape :
  forallb (fun w => negb (mem_char "."%char w) && negb (mem_char "["%char w)
                    && String.eqb (rstrip ".- " w) w && String.eqb (rstrip_ws w) w) W = true.
Proof. vm_compute. reflexivity. Qed.

Lemma tokens_apart :
  forallb (fun u => forallb (fun w => String.eqb u w || negb (contains u w)) W) W = true.
Proof. vm_compute. reflexivity. Qed.

Lemma NoDup_W : NoDup W.
Proof.
  unfold W, words_to_remove. repeat constructor; simpl; intros H;
    repeat (destruct H as [H|H]; [discriminate H|]); exact H.
Qed.

Lemma token_facts : forall w, In w W ->
  w <> EmptyString /\ mem_char "."%char w = false /\ mem_char "["%char w = false /\
  rstrip ".- " w = w /\ rstrip_ws w = w.
Proof.
  intros w Hw. pose proof tokens_shape as H. rewrite forallb_forall in H.
  specialize (H w Hw).
  repeat rewrite andb_true_iff in H. destruct H as [[[H1 H2] H3] H4].
  apply negb_true_iff in H1, H2. apply String.eqb_eq in H3, H4.
  split; [|tauto]. intros ->. unfold W, words_to_remove in Hw. simpl in Hw.
  repeat (destruct Hw as [Hw|Hw]; [discriminate Hw|]); exact Hw.
Qed.

Lemma token_not_in_other : forall u w, In u W -> In w W -> u <> w -> contains u w = false.
Proof.
  intros u w Hu Hw Hne. pose proof tokens_apart as H. rewrite forallb_forall in H.
  specialize (H u Hu). rewrite forallb_forall in H. specialize (H w Hw).
  apply orb_true_iff in H as [H|H]; [apply String.eqb_eq in H; congruence|].
  apply negb_true_iff in H; exact H.
Qed.

Lemma prefix_nil_r : forall w, w <> EmptyString -> prefix w EmptyString = false.
Proof. intros [|c w] H; [congruence | reflexivity]. Qed.

Lemma str_app_assoc_clean : forall a b c : string, a ++ (b ++ c) = (a ++ b) ++ c.
Proof. induction a as [|x a IH]; intros b c; simpl; [reflexivity|rewrite IH; reflexivity]. Qed.

(** A pattern without ['.'] that starts at [x] cannot run past a following
    ['.']. *)
Lemma prefix_dot : forall u x b, mem_char "."%char u = false ->
  prefix u (x ++ String "." b) = prefix u x.
Proof.
  intros u x; revert u; induction x as [|d x IH]; intros [|c u] b Hu; try reflexivity.
  - cbn [mem_char append prefix] in Hu |- *. apply orb_false_iff in Hu as [Hc _].
    rewrite Ascii.eqb_sym, Hc. reflexivity.
  - cbn [mem_char append prefix] in Hu |- *. apply orb_false_iff in Hu as [_ Hu].
    rewrite (IH u b Hu). reflexivity.
Qed.

Lemma contains_dot : forall u x b, u <> EmptyString -> mem_char "."%char u = false ->
  contains u (x ++ String "." b) = contains u x || contains u b.
Proof.
  intros u x b Hne Hu; induction x as [|d x IH].
  - cbn [append contains].
    change (prefix u (String "." b)) with (prefix u ("" ++ String "." b)).
    rewrite (prefix_dot u "" b Hu), prefix_nil_r by exact Hne.
    destruct u; [congruence|reflexivity].
  - cbn [append]. change (contains u (String d (x ++ String "." b)))
      with (prefix u (String d (x ++ String "." b)) || contains u (x ++ String "." b)).
    change (String d (x ++ String "." b)) with (String d x ++ String "." b).
    rewrite prefix_dot by exact Hu. rewrite IH.
    change (contains u (String d x)) with (prefix u (String d x) || contains u x).
    rewrite orb_assoc. reflexivity.
Qed.

Lemma contains_prefix : forall u s, contains u s = false -> prefix u s = false.
Proof. intros u [|c s] H; simpl in H; apply orb_false_iff in H as [H _]; exact H. Qed.

Lemma replace1_absent : forall u s, contains u s = false -> replace1 u "" s = s.
Proof.
  intros u s; induction s as [|c s IH]; intros H; simpl in H |- *;
    apply orb_false_iff in H as [Hp Hc]; rewrite Hp; [reflexivity|].
  rewrite (IH Hc). reflexivity.
Qed.

Lemma prefix_self_app : forall a b, prefix a (a ++ b) = true.
Proof. induction a as [|x a IH]; intros b; simpl; [reflexivity|rewrite Ascii.eqb_refl; apply IH]. Qed.

Lemma str_drop_app : forall a b, str_drop (String.length a) (a ++ b) = b.
Proof. induction a as [|x a IH]; intros b; simpl; [reflexivity|apply IH]. Qed.

(** [str.replace(w, "", 1)] on [p.w.w], [w] absent from [p]: the first [w]
    goes, the second stays. *)
Lemma replace1_cons : forall u n c s,
  replace1 u n (String c s) =
  if prefix u (String c s) then n ++ str_drop (String.length u) (String c s)
  else String c (replace1 u n s).
Proof. reflexivity. Qed.

Lemma replace1_self : forall u x, u <> EmptyString -> replace1 u "" (u ++ x) = x.
Proof.
  intros [|c w] x Hne; [congruence|].
  change (String c w ++ x) with (String c (w ++ x)). rewrite replace1_cons.
  change (String c (w ++ x)) with (String c w ++ x).
  rewrite prefix_self_app, str_drop_app. reflexivity.
Qed.

Lemma replace1_first_copy : forall w p, w <> EmptyString -> mem_char "."%char w = false ->
  contains w p = false ->
  replace1 w "" (p ++ "." ++ w ++ "." ++ w) = p ++ ".." ++ w.
Proof.
  intros w p Hne Hd; induction p as [|c p IH]; intros Hc.
  - change ("" ++ "." ++ w ++ "." ++ w) with (String "." (w ++ "." ++ w)).
    rewrite replace1_cons.
    destruct w as [|c w]; [congruence|].
    cbn [mem_char] in Hd. apply orb_false_iff in Hd as [Hd0 _].
    cbn [prefix]. rewrite Ascii.eqb_sym, Hd0. cbn [andb].
    rewrite replace1_self by exact Hne. reflexivity.
  - change ((String c p) ++ "." ++ w ++ "." ++ w)
      with (String c (p ++ "." ++ w ++ "." ++ w)).
    rewrite replace1_cons.
    change (String c (p ++ "." ++ w ++ "." ++ w))
      with (String c p ++ String "." (w ++ "." ++ w)).
    rewrite prefix_dot by exact Hd. rewrite (contains_prefix _ _ Hc).
    cbn [contains] in Hc. apply orb_false_iff in Hc as [_ Hc].
    rewrite (IH Hc). reflexivity.
Qed.

Lemma fold_replace1_absent : forall l s,
  Forall (fun u => contains u s = false) l ->
  fold_left (fun n u => replace1 u "" n) l s = s.
Proof.
  induction l as [|u l IH]; intros s H; [reflexivity|].
  inversion H as [|? ? Hu Hl]; subst. simpl. rewrite (replace1_absent _ _ Hu). apply IH, Hl.
Qed.

Lemma rstrip_app : forall chars a b, rstrip chars b <> EmptyString ->
  rstrip chars (a ++ b) = a ++ rstrip chars b.
Proof.
  intros chars a b Hb; induction a as [|c a IH]; [reflexivity|].
  cbn [append rstrip]. rewrite IH.
  destruct (a ++ rstrip chars b) eqn:E; [|reflexivity].
  destruct a; simpl in E; [congruence|discriminate].
Qed.

Lemma rstrip_ws_app : forall a b, rstrip_ws b <> EmptyString ->
  rstrip_ws (a ++ b) = a ++ rstrip_ws b.
Proof.
  intros a b Hb; induction a as [|c a IH]; [reflexivity|].
  cbn [append rstrip_ws]. rewrite IH.
  destruct (a ++ rstrip_ws b) eqn:E; [|reflexivity].
  destruct a; simpl in E; [congruence|discriminate].
Qed.

Lemma lstrip_ws_app : forall a c b, is_space c = false ->
  lstrip_ws (a ++ String c b) = lstrip_ws a ++ String c b.
Proof.
  intros a c b Hc; induction a as [|d a IH]; cbn [append lstrip_ws].
  - rewrite Hc. reflexivity.
  - destruct (is_space d); [exact IH|reflexivity].
Qed.

Lemma mem_char_app : forall c a b, mem_char c (a ++ b) = mem_char c a || mem_char c b.
Proof.
  intros c a b; induction a as [|d a IH]; [reflexivity|].
  cbn [append mem_char]. rewrite IH, orb_assoc. reflexivity.
Qed.

Lemma remove_brackets_fuel_id : forall f s, mem_char "["%char s = false ->
  remove_brackets_fuel f s = s.
Proof.
  induction f as [|f IH]; intros [|c s] H; try reflexivity.
  cbn [mem_char] in H. apply orb_false_iff in H as [Hc Hs].
  cbn [remove_brackets_fuel]. rewrite Ascii.eqb_sym, Hc, (IH s Hs). reflexivity.
Qed.

(** C7 (counterexample): the token [1080p] occurring twice in a name
    survives [clean_file_name] once. *)
Lemma clean_file_name_keeps_repeated_token :
  clean_file_name "Movie.1080p.1080p" = "Movie..1080p" /\
  contains "1080p" (clean_file_name "Movie.1080p.1080p") = true.
Proof. split; vm_compute; reflexivity. Qed.

(** C7 (amended): [clean_file_name] deletes only the first occurrence of
    each recognised token, and its later steps only strip trailing ['.'],
    ['-'], [' '], remove [[...]] groups and trim; so, whatever the iteration
    order of the token set, a token written twice after a prefix [p] free of
    tokens and of ['['] keeps its second occurrence: [p.w.w] becomes [p..w]
    (with [p]'s leading whitespace trimmed). *)
Theorem clean_file_name_keeps_later_occurrence : forall order w p,
  Permutation order words_to_remove ->
  In w words_to_remove ->
  forallb (fun u => negb (contains u p)) words_to_remove = true ->
  mem_char "["%char p = false ->
  clean_file_name_in order (p ++ "." ++ w ++ "." ++ w) = lstrip_ws p ++ ".." ++ w.
Proof.
  intros order w p Hperm Hw Hp Hb.
  fold W in Hperm, Hw, Hp.
  destruct (token_facts w Hw) as (Hne & Hd & Hbr & Hrs & Hws).
  assert (Hpu : forall u, In u W -> contains u p = false).
  { intros u Hu. rewrite forallb_forall in Hp. apply negb_true_iff, Hp, Hu. }
  assert (Hin : In w order) by (apply (Permutation_in w (Permutation_sym Hperm)), Hw).
  assert (Hnd : NoDup order) by (apply (Permutation_NoDup (Permutation_sym Hperm)), NoDup_W).
  apply in_split in Hin as (l1 & l2 & Ho). subst order.
  apply NoDup_remove_2 in Hnd.
  assert (Hothers : forall u, In u (l1 ++ l2) -> In u W /\ u <> w).
  { intros u Hu. split.
    - apply (Permutation_in u Hperm). apply in_app_or in Hu as [Hu|Hu];
        [apply in_or_app; left; exact Hu | apply in_or_app; right; right; exact Hu].
    - intros ->. exact (Hnd Hu). }
  assert (Hfresh : forall u, In u (l1 ++ l2) -> forall s,
            (s = p ++ "." ++ w ++ "." ++ w \/ s = p ++ ".." ++ w) -> contains u s = false).
  { intros u Hu s Hs. destruct (Hothers u Hu) as [HuW Huw].
    destruct (token_facts u HuW) as (Hune & Hud & _).
    assert (Huw' := token_not_in_other u w HuW Hw Huw).
    destruct Hs as [->| ->]; cbn [append].
    - rewrite contains_dot by assumption. rewrite (Hpu u HuW).
      change (w ++ String "." w) with (w ++ String "." ("" ++ w)).
      rewrite contains_dot by assumption. rewrite Huw'.
      cbn [append]. rewrite Huw'. reflexivity.
    - rewrite contains_dot by assumption. rewrite (Hpu u HuW).
      change (String "." w) with ("" ++ String "." w).
      rewrite contains_dot by assumption. rewrite Huw'.
      destruct u; [congruence|simpl; reflexivity]. }
  unfold clean_file_name_in, remove_words.
  rewrite fold_left_app. cbn [fold_left].
  rewrite (fold_replace1_absent l1).
  2:{ apply Forall_forall. intros u Hu. apply (Hfresh u); [apply in_or_app; left; exact Hu|left; reflexivity]. }
  rewrite replace1_first_copy by (try apply Hpu; assumption).
  rewrite (fold_replace1_absent l2).
  2:{ apply Forall_forall. intros u Hu. apply (Hfresh u); [apply in_or_app; right; exact Hu|right; reflexivity]. }
  assert (Hrw : rstrip ".- " w <> EmptyString) by (rewrite Hrs; exact Hne).
  rewrite (str_app_assoc_clean p ".." w), (rstrip_app ".- " (p ++ "..") w Hrw), Hrs.
  unfold remove_brackets. rewrite remove_brackets_fuel_id.
  2:{ rewrite !mem_char_app, Hb, Hbr. reflexivity. }
  unfold strip. rewrite (rstrip_ws_app (p ++ "..") w) by (rewrite Hws; exact Hne).
  rewrite Hws, <- str_app_assoc_clean. cbn [append].
  apply lstrip_ws_app. reflexivity.
Qed.

Lemma clean_file_name_keeps_later_occurrence_witness :
  Permutation words_to_remove words_to_remove /\
  In "1080p" words_to_remove /\
  forallb (fun u => negb (contains u "Movie")) words_to_remove = true /\
  mem_char "["%char "Movie" = false /\
  clean_file_name "Movie.1080p.1080p" = "Movie..1080p".
Proof.
  assert (H1 : Permutation words_to_remove words_to_remove) by apply Permutation_refl.
  assert (H2 : In "1080p" words_to_remove) by (simpl; tauto).
  assert (H3 : forallb (fun u => negb (contains u "Movie")) words_to_remove = true)
    by (vm_compute; reflexivity).
  assert (H4 : mem_char "["%char "Movie" = false) by reflexivity.
  split; [exact H1|]. split; [exact H2|]. split; [exact H3|]. split; [exact H4|].
  exact (clean_file_name_keeps_later_occurrence words_to_remove "1080p" "Movie" H1 H2 H3 H4).
Defined.

End CleanFacts.

(* ------------------------------------------------------------------ *)
(** ** The cache of [get_tmdb_id]: its keys and its size *)

Module CacheFacts.
Import PyStr Py Resolver.

Lemma key_eqb_eq : forall a b, key_eqb a b = true <-> a = b.
Proof.
  intros [s1 b1] [s2 b2]. unfold key_eqb. simpl.
  rewrite andb_true_iff, String.eqb_eq, Bool.eqb_true_iff.
  split; [intros [-> ->]; reflexivity | intros H; inversion H; auto].
Qed.

Lemma lookup_none : forall k c, lookup k c = None -> ~ In k (map fst c).
Proof.
  intros k c. induction c as [|[k' v] c IH]; simpl; auto.
  destruct (key_eqb k k') eqn:E; [discriminate|].
  intros H [Hk|Hin]; [|exact (IH H Hin)].
  subst k'. rewrite (proj2 (key_eqb_eq k k) eq_refl) in E. discriminate.
Qed.

Lemma lookup_some : forall k c v, lookup k c = Some v -> In k (map fst c).
Proof.
  intros k c v. induction c as [|[k' w] c IH]; simpl; [discriminate|].
  destruct (key_eqb k k') eqn:E; intros H.
  - left. symmetry. apply key_eqb_eq, E.
  - right. apply IH, H.
Qed.

Lemma remove_key_notin : forall k c, ~ In k (map fst (remove_key k c)).
Proof.
  intros k c. unfold remove_key. induction c as [|[k' v] c IH]; simpl; auto.
  destruct (key_eqb k k') eqn:E; simpl; auto.
  intros [Hk|H]; [|exact (IH H)].
  subst k'. rewrite (proj2 (key_eqb_eq k k) eq_refl) in E. discriminate.
Qed.

Lemma remove_key_sub : forall k c x, In x (map fst (remove_key k c)) -> In x (map fst c).
Proof.
  intros k c x. unfold remove_key. induction c as [|[k' v] c IH]; simpl; auto.
  destruct (negb (key_eqb k k')); simpl; intros H; [destruct H; auto|]; auto.
Qed.

Lemma remove_key_nodup : forall k c, NoDup (map fst c) -> NoDup (map fst (remove_key k c)).
Proof.
  intros k c. induction c as [|[k' v] c IH]; simpl; intros H; auto.
  inversion H as [|? ? Hn Hd]; subst.
  unfold remove_key in *. simpl.
  destruct (negb (key_eqb k k')); simpl; auto.
  constructor; auto. intros Hin. apply Hn. eapply remove_key_sub. exact Hin.
Qed.

Lemma remove_key_length : forall k c, In k (map fst c) -> length (remove_key k c) < length c.
Proof.
  intros k c. unfold remove_key. induction c as [|[k' v] c IH]; simpl; [tauto|].
  intros H. destruct (key_eqb k k') eqn:E; simpl.
  - pose proof (filter_length_le (fun e => negb (key_eqb k (fst e))) c). lia.
  - destruct H as [Hk|H].
    + subst k'. rewrite (proj2 (key_eqb_eq k k) eq_refl) in E. discriminate.
    + specialize (IH H). lia.
Qed.

Lemma in_firstn : forall A n (l : list A) x, In x (firstn n l) -> In x l.
Proof.
  intros A n. induction n as [|n IH]; intros [|y l] x H; simpl in *; try tauto.
  destruct H as [H|H]; [left; exact H|right; eapply IH; exact H].
Qed.

Lemma nodup_firstn : forall A n (l : list A), NoDup l -> NoDup (firstn n l).
Proof.
  intros A n. induction n as [|n IH]; intros [|x l] H; simpl; try apply NoDup_nil.
  inversion H as [|? ? Hn Hd]; subst. constructor; auto.
  intros Hin. apply Hn. eapply in_firstn. exact Hin.
Qed.

Lemma get_tmdb_id_cache_ok : forall stop service ratio title is_movie rs,
  NoDup (map fst (r_cache rs)) /\ length (r_cache rs) <= maxsize ->
  let rs' := snd (get_tmdb_id stop service ratio title is_movie rs) in
  NoDup (map fst (r_cache rs')) /\ length (r_cache rs') <= maxsize.
Proof.
  intros stop service ratio title is_movie rs [Hd Hl]. cbv zeta. unfold get_tmdb_id.
  destruct (lookup (title, is_movie) (r_cache rs)) as [v|] eqn:Hk.
  - apply lookup_some in Hk. split; simpl.
    + constructor; [apply remove_key_notin|apply remove_key_nodup, Hd].
    + pose proof (remove_key_length _ _ Hk). lia.
  - apply lookup_none in Hk.
    destruct (get_tmdb_id_body stop service ratio title is_movie); split; cbn [snd r_cache]; auto.
    + rewrite <- firstn_map. apply nodup_firstn. constructor; auto.
    + apply firstn_le_length.
Qed.

Lemma run_calls_cache_ok : forall stop service ratio calls rs,
  NoDup (map fst (r_cache rs)) /\ length (r_cache rs) <= maxsize ->
  let rs' := snd (run_calls stop service ratio calls rs) in
  NoDup (map fst (r_cache rs')) /\ length (r_cache rs') <= maxsize.
Proof.
  intros stop service ratio calls. induction calls as [|[t m] calls IH]; intros rs H; cbv zeta; simpl; auto.
  destruct (get_tmdb_id stop service ratio t m rs) as [r rs1] eqn:E.
  destruct (run_calls stop service ratio calls rs1) as [outs rs2] eqn:E2. simpl.
  replace rs2 with (snd (run_calls stop service ratio calls rs1)) by (rewrite E2; reflexivity).
  apply IH. replace rs1 with (snd (get_tmdb_id stop service ratio t m rs)) by (rewrite E; reflexivity).
  apply get_tmdb_id_cache_ok, H.
Qed.

(** With [n + 1] entries, keeping the first [n] drops the last one. *)
Lemma firstn_removelast : forall A (l : list A) n, length l = S n -> firstn n l = removelast l.
Proof.
  intros A l. induction l as [|x l IH]; intros n H; [discriminate|].
  destruct l as [|y l].
  - simpl in H. injection H as <-. reflexivity.
  - destruct n as [|n]; [discriminate|].
    change (removelast (x :: y :: l)) with (x :: removelast (y :: l)).
    simpl firstn. f_equal. apply IH. simpl in *. lia.
Qed.

End CacheFacts.

(* ------------------------------------------------------------------ *)
(** ** The resolver ([get_tmdb_id]) *)

Module ResolverFacts.
Import PyStr Py Resolver Fixtures CacheFacts.

Lemma key_eqb_refl : forall k, key_eqb k k = true.
Proof. intros [t m]; unfold key_eqb; simpl. rewrite String.eqb_refl, Bool.eqb_reflx. reflexivity. Qed.


(** C4 (counterexample): with [maxsize=1024], the entry for ["Heat"] is
    evicted by 1024 later keys and the second call searches TMDb again. *)
Lemma get_tmdb_id_cache_evicts :
  count_key ("Heat", true)
    (r_searches (snd (run_calls stop_on_error one_hit_service (fun _ _ => 0)
                        eviction_calls empty_rstate))) = 2.
Proof. vm_compute. reflexivity. Qed.

(** C4 (amended): [get_tmdb_id] is an LRU cache of at most [maxsize]
    (1024) entries keyed by (title, kind).  A call whose key is cached
    returns the cached value, sends no search and moves the entry to the
    front.  A call whose key is not cached sends one search; a value it
    returns (an id, or ["N/A"] when [stop_on_error] is off) is stored at the
    front, and when the cache already holds [maxsize] entries the least
    recently used one (the last) is evicted; a call that exits stores
    nothing.  A cache of distinct keys within the bound stays so, and so
    does the cache reached from the empty one by any sequence of calls. *)
Theorem get_tmdb_id_memoised : forall stop service ratio title is_movie rs,
  let k := (title, is_movie) in
  let r := get_tmdb_id stop service ratio title is_movie rs in
  (forall v, lookup k (r_cache rs) = Some v ->
     r = (PyOk v, {| r_cache := (k, v) :: remove_key k (r_cache rs);
                     r_searches := r_searches rs |})) /\
  (lookup k (r_cache rs) = None ->
     r_searches (snd r) = k :: r_searches rs /\
     (forall v, get_tmdb_id_body stop service ratio title is_movie = PyOk v ->
        fst r = PyOk v /\
        r_cache (snd r) = firstn maxsize ((k, v) :: r_cache rs) /\
        (length (r_cache rs) = maxsize ->
         r_cache (snd r) = (k, v) :: removelast (r_cache rs))) /\
     (forall c, get_tmdb_id_body stop service ratio title is_movie = PyExit c ->
        fst r = PyExit c /\ r_cache (snd r) = r_cache rs)) /\
  (forall v, fst r = PyOk v -> lookup k (r_cache (snd r)) = Some v) /\
  (NoDup (map fst (r_cache rs)) /\ length (r_cache rs) <= maxsize ->
   NoDup (map fst (r_cache (snd r))) /\ length (r_cache (snd r)) <= maxsize) /\
  (forall calls,
     let c := r_cache (snd (run_calls stop service ratio calls empty_rstate)) in
     NoDup (map fst c) /\ length c <= maxsize).
Proof.
  intros stop service ratio title is_movie rs k r.
  split; [|split; [|split; [|split]]].
  - intros v Hv. subst r k. unfold get_tmdb_id. rewrite Hv. reflexivity.
  - intros Hn. subst r k. unfold get_tmdb_id. rewrite Hn.
    split; [destruct (get_tmdb_id_body stop service ratio title is_movie); reflexivity|].
    split.
    + intros v Hb. rewrite Hb. cbn [fst snd r_cache]. split; [reflexivity|]. split; [reflexivity|].
      intros Hl. change maxsize with (S 1023). rewrite firstn_cons. f_equal.
      apply firstn_removelast. rewrite Hl. reflexivity.
    + intros c Hb. rewrite Hb. split; reflexivity.
  - intros v. subst r k. unfold get_tmdb_id.
    destruct (lookup (title, is_movie) (r_cache rs)) as [v'|] eqn:Hl; simpl.
    + intros [= <-]. rewrite key_eqb_refl. reflexivity.
    + destruct (get_tmdb_id_body stop service ratio title is_movie) as [v'| |];
        simpl; try discriminate.
      intros [= <-]. rewrite key_eqb_refl. reflexivity.
  - apply get_tmdb_id_cache_ok.
  - intros calls. apply (run_calls_cache_ok stop service ratio calls empty_rstate).
    split; simpl; [constructor|unfold maxsize; lia].
Qed.

Lemma get_tmdb_id_memoised_witness :
  lookup ("Heat", true) (r_cache cached_heat) = Some (TmdbId 949) /\
  get_tmdb_id stop_on_error one_hit_service (fun _ _ => 0) "Heat" true cached_heat
    = (PyOk (TmdbId 949), cached_heat) /\
  get_tmdb_id_body stop_on_error one_hit_service (fun _ _ => 0) "Heat" true = PyOk (TmdbId 949) /\
  r_cache (snd (get_tmdb_id stop_on_error one_hit_service (fun _ _ => 0) "Heat" true
                  empty_rstate)) = [(("Heat", true), TmdbId 949)].
Proof.
  assert (Hl : lookup ("Heat", true) (r_cache cached_heat) = Some (TmdbId 949))
    by reflexivity.
  assert (Hn : lookup ("Heat", true) (r_cache empty_rstate) = None) by reflexivity.
  assert (Hb : get_tmdb_id_body stop_on_error one_hit_service (fun _ _ => 0) "Heat" true
               = PyOk (TmdbId 949)) by reflexivity.
  destruct (get_tmdb_id_memoised stop_on_error one_hit_service (fun _ _ => 0) "Heat" true
              cached_heat) as [Hhit _].
  destruct (get_tmdb_id_memoised stop_on_error one_hit_service (fun _ _ => 0) "Heat" true
              empty_rstate) as [_ [Hmiss _]].
  split; [exact Hl|]. split; [exact (Hhit _ Hl)|]. split; [exact Hb|].
  exact (proj1 (proj2 (proj1 (proj2 (Hmiss Hn)) _ Hb))).
Defined.


(** C5 (counterexample): with the module's [stop_on_error = True], a failed
    search ends in [sys.exit(1)], not in ["N/A"]. *)
Lemma get_tmdb_id_error_exits :
  get_tmdb_id_body stop_on_error failing_service (fun _ _ => 0) "Heat" true = PyExit 1.
Proof. reflexivity. Qed.

(** C5 (amended): when the search raises, [get_tmdb_id] (after logging)
    calls [sys.exit(1)] if [stop_on_error] is set and returns ["N/A"]
    otherwise; nothing is cached in either case. *)
Theorem get_tmdb_id_search_error : forall stop service ratio title is_movie rs,
  lookup (title, is_movie) (r_cache rs) = None ->
  search service is_movie (query_of title) = SvcErr ->
  get_tmdb_id_body stop service ratio title is_movie
    = (if stop then PyExit 1 else PyOk NotFound) /\
  fst (get_tmdb_id stop service ratio title is_movie rs)
    = (if stop then PyExit 1 else PyOk NotFound) /\
  (stop = true -> r_cache (snd (get_tmdb_id stop service ratio title is_movie rs)) = r_cache rs).
Proof.
  intros stop service ratio title is_movie rs Hl Hs.
  assert (Hb : get_tmdb_id_body stop service ratio title is_movie
               = (if stop then PyExit 1 else PyOk NotFound))
    by (unfold get_tmdb_id_body; rewrite Hs; reflexivity).
  split; [exact Hb|].
  unfold get_tmdb_id; rewrite Hl, Hb.
  destruct stop; simpl; split; try reflexivity; discriminate.
Qed.

Lemma get_tmdb_id_search_error_witness :
  (get_tmdb_id_body false failing_service (fun _ _ => 0) "Heat" true = PyOk NotFound /\
   fst (get_tmdb_id false failing_service (fun _ _ => 0) "Heat" true empty_rstate)
     = PyOk NotFound /\
   (false = true -> r_cache (snd (get_tmdb_id false failing_service (fun _ _ => 0) "Heat" true
                                    empty_rstate)) = r_cache empty_rstate)).
Proof.
  exact (get_tmdb_id_search_error false failing_service (fun _ _ => 0) "Heat" true empty_rstate
           eq_refl eq_refl).
Defined.

End ResolverFacts.

(* ------------------------------------------------------------------ *)
(** ** The series-directory collision loop *)

Module SeriesDirFacts.
Import PyStr SeriesStr Handler.

Lemma length_append : forall a b : string,
  String.length (a ++ b) = String.length a + String.length b.
Proof. induction a as [|c a IH]; intros b; simpl; [reflexivity | rewrite IH; reflexivity]. Qed.

Lemma title_from_length : forall b s, String.length (title_from b s) = String.length s.
Proof.
  intros b s; revert b; induction s as [|c s IH]; intros b; simpl; [reflexivity|].
  destruct (is_upper c); [simpl; rewrite IH; reflexivity|].
  destruct (is_lower c); simpl; rewrite IH; reflexivity.
Qed.

Lemma remove_parens_app : forall a b, remove_parens (a ++ b) = remove_parens a ++ remove_parens b.
Proof.
  induction a as [|c a IH]; intros b; simpl; [reflexivity|].
  destruct (Ascii.eqb c "("%char || Ascii.eqb c ")"%char); rewrite IH; reflexivity.
Qed.

Lemma find_year_shape : forall s y, find_year s = Some y ->
  String.length y = 4 /\ remove_parens y = y.
Proof.
  induction s as [|c s IH]; intros y H; [discriminate|].
  simpl in H.
  repeat match type of H with
         | context [match ?x with _ => _ end] => destruct x eqn:?
         end;
    try (apply IH; exact H); try discriminate.
  all: injection H as <-; split; [reflexivity|].
  all: repeat match goal with E : (_ && _)%bool = true |- _ => apply andb_prop in E; destruct E end.
  all: unfold is_digit in *; simpl.
  all: repeat match goal with
         | |- context [Ascii.eqb ?a ?b] =>
             let E := fresh in destruct (Ascii.eqb a b) eqn:E;
             [apply Ascii.eqb_eq in E; subst; discriminate|]
         end; reflexivity.
Qed.

Lemma normalize_length : forall s,
  String.length (normalize_dir_name s) =
  String.length (remove_parens s) + (match find_year s with Some _ => 6 | None => 0 end).
Proof.
  intros s; unfold normalize_dir_name, title.
  rewrite length_append, title_from_length.
  destruct (find_year s) as [y|] eqn:Hy; [|reflexivity].
  destruct (find_year_shape s y Hy) as [Hl _]. simpl. rewrite length_append, Hl. reflexivity.
Qed.

(** Whatever the year found in [series_title], the second candidate of the
    loop normalises to a longer name than [series_title] does. *)
Lemma second_candidate_differs : forall series_title,
  normalize_dir_name
    (series_title ++ " (" ++ str_opt (find_year series_title) ++ ") (" ++ str_of_nat 2 ++ ")")
  <> normalize_dir_name series_title.
Proof.
  intros t Heq. apply (f_equal String.length) in Heq.
  rewrite !normalize_length in Heq.
  rewrite !remove_parens_app, !length_append in Heq.
  assert (Hy : String.length (remove_parens (str_opt (find_year t))) = 4).
  { destruct (find_year t) as [y|] eqn:E; [|reflexivity].
    destruct (find_year_shape t y E) as [Hl Hr]. simpl. rewrite Hr. exact Hl. }
  rewrite Hy in Heq. simpl in Heq.
  destruct (find_year (t ++ _)), (find_year t); lia.
Qed.

(** When the series root holds entries whose normalised name equals that
    of the series title, the loop ends at counter 2 with
    ["<title> (<year>) (2)"], whose normalised name differs from theirs. *)
Lemma pick_series_dir_counter_two : forall series_title existing,
  existing <> [] ->
  Forall (fun d => normalize_dir_name d = normalize_dir_name series_title) existing ->
  pick_series_dir_name (S (length (map normalize_dir_name existing))) 1 series_title
    (find_year series_title) (map normalize_dir_name existing)
  = series_title ++ " (" ++ str_opt (find_year series_title) ++ ") (2)" /\
  ~ In (series_title ++ " (" ++ str_opt (find_year series_title) ++ ") (2)") existing.
Proof.
  intros t ex Hne Hall.
  assert (Hdiff := second_candidate_differs t).
  assert (Hnot : existsb (String.eqb (normalize_dir_name
                   (t ++ " (" ++ str_opt (find_year t) ++ ") (" ++ str_of_nat 2 ++ ")")))
                   (map normalize_dir_name ex) = false).
  { apply Bool.not_true_iff_false; intros Hx.
    apply existsb_exists in Hx as [n [Hin Heq]].
    apply in_map_iff in Hin as [d [<- Hd]].
    apply String.eqb_eq in Heq. rewrite Forall_forall in Hall.
    rewrite (Hall d Hd) in Heq. exact (Hdiff Heq). }
  destruct ex as [|d ex]; [congruence|].
  inversion Hall as [|? ? Hd Hrest]; subst.
  assert (Hfirst : existsb (String.eqb (normalize_dir_name t)) (map normalize_dir_name (d :: ex))
                   = true).
  { cbn [map existsb]. rewrite Hd, String.eqb_refl. reflexivity. }
  split.
  - cbn [length map] in Hfirst, Hnot |- *.
    cbn [pick_series_dir_name Nat.ltb Nat.leb].
    rewrite Hfirst.
    destruct (length (map normalize_dir_name ex)); rewrite Hnot; reflexivity.
  - intros Hin. apply Hdiff.
    rewrite Forall_forall in Hall. apply (Hall _ Hin).
Qed.

End SeriesDirFacts.

(* ------------------------------------------------------------------ *)
(** ** [process_movie] and [process_series] *)

Module PipelineFacts.
Import PyStr Py SeriesStr Store Handler Fixtures.

(** C1: once a source has a ledger record whose link is a symbolic link,
    processing it again, as a movie or as an episode, returns at the ledger
    check: no directory, link or ledger row is added, and the state is
    unchanged. *)
Theorem second_run_is_noop : forall stop service titlecase (movies_root series_root : path)
    file_path fi tmdb_id st l,
  truthy_str (fi_title fi) = true ->
  (assoc file_path (db_movies st) = Some l -> is_symlink st l = true ->
   run (process_movie stop service titlecase movies_root file_path fi tmdb_id) st
   = (Returned, st)) /\
  (assoc file_path (db_series st) = Some l -> is_symlink st l = true ->
   run (process_series stop service titlecase series_root file_path fi tmdb_id) st
   = (Returned, st)).
Proof.
  intros stop service tc mroot sroot src fi id st l Ht.
  destruct (fi_title fi) as [t|] eqn:Hfi; [|discriminate].
  split; intros Hl Hs.
  - unfold run, process_movie, bind, titlecase_opt, has_recorded_symlink, ret.
    rewrite Hfi. cbn [db_of]. rewrite Hl, Hs. reflexivity.
  - unfold run, process_series, bind, titlecase_opt, has_recorded_symlink, ret.
    unfold py_or at 1. rewrite Hfi, Ht.
    destruct (is_type_movie fi); [reflexivity|].
    cbn [db_of]. rewrite Hl, Hs. reflexivity.
Qed.

(** Episode 2 of ["Show"], linked once, with its ledger row. *)
Lemma second_run_is_noop_witness :
  truthy_str (fi_title fi_e02) = true /\
  run (process_series stop_on_error svc_lib tc_title series_root src_e02 fi_e02 NotFound) st_show
  = (Returned, st_show).
Proof.
  assert (Ht : truthy_str (fi_title fi_e02) = true) by reflexivity.
  split; [exact Ht|].
  exact (proj2 (second_run_is_noop stop_on_error svc_lib tc_title movie_root series_root
                  src_e02 fi_e02 NotFound st_show
                  (app series_root ["Show"; "Season 01"; "Show - s01e02 - Unknown Title.mkv"]) Ht)
           eq_refl eq_refl).
Defined.

(** C10: a file whose parsed type is ['movie'] is dropped by
    [process_series] before anything else happens: the method returns and
    the state (directories, links, ledgers) is unchanged. *)
Theorem series_skips_movie_type : forall stop service titlecase (series_root : path)
    file_path fi tmdb_id st,
  is_type_movie fi = true ->
  truthy_str (py_or (fi_title fi) (fi_series fi)) = true ->
  run (process_series stop service titlecase series_root file_path fi tmdb_id) st
  = (Returned, st).
Proof.
  intros stop service tc sroot src fi id st Hty Ht.
  unfold run, process_series, bind, titlecase_opt, ret.
  destruct (py_or (fi_title fi) (fi_series fi)); [|discriminate].
  rewrite Hty. reflexivity.
Qed.

Lemma series_skips_movie_type_witness :
  is_type_movie fi_movie = true /\
  truthy_str (py_or (fi_title fi_movie) (fi_series fi_movie)) = true /\
  run (process_series stop_on_error svc_lib tc_title series_root src_movie fi_movie NotFound) st_lib
  = (Returned, st_lib).
Proof.
  assert (H1 : is_type_movie fi_movie = true) by reflexivity.
  assert (H2 : truthy_str (py_or (fi_title fi_movie) (fi_series fi_movie)) = true) by reflexivity.
  split; [exact H1|]. split; [exact H2|].
  exact (series_skips_movie_type stop_on_error svc_lib tc_title series_root src_movie fi_movie
           NotFound st_lib H1 H2).
Defined.

(** C3 (code bug): with [stop_on_error] off and the resolver's ["N/A"]
    (the genre lookup for ["N/A"] fails and degrades to [[]]), the movie
    directory keeps an empty id fragment: [Some Movie (2021) {}]. *)
Lemma movie_not_found_keeps_braces :
  let st' := snd (run (process_movie false svc_lib tc_title movie_root src_movie fi_movie NotFound)
                    st_lib) in
  link_target st' (app movie_root ["Uncategorized"; "Some Movie (2021) {}"; "Some Movie.mkv"])
    = Some src_movie /\
  is_dir st' (app movie_root ["Uncategorized"; "Some Movie (2021)"]) = false.
Proof. vm_compute. split; reflexivity. Qed.

(** Scenario A of the spec, which the code meets: id 12345, genre Action. *)
Lemma movie_scenario_a :
  let st' := snd (run (process_movie stop_on_error svc_lib tc_title movie_root src_movie fi_movie
                         (TmdbId 12345)) st_lib) in
  link_target st' (app movie_root ["Action"; "Some Movie (2021) {tmdb-12345}"; "Some Movie.mkv"])
    = Some src_movie /\
  assoc src_movie (db_movies st')
    = Some (app movie_root ["Action"; "Some Movie (2021) {tmdb-12345}"; "Some Movie.mkv"]).
Proof. vm_compute. split; reflexivity. Qed.

(** C2 (counterexample): the series root holds ["Show"], the exact
    normalised match of the title of episode 3; the episode is not put in
    it but in a new directory ["Show (None) (2)"]. *)
Lemma series_match_not_reused :
  normalize_dir_name "Show" = normalize_dir_name (tc_title "show") /\
  let st' := snd (run (process_series stop_on_error svc_lib tc_title series_root src_e03 fi_e03
                         NotFound) st_show) in
  link_target st' (app series_root ["Show"; "Season 01"; "Show - s01e03 - Unknown Title.mkv"])
    = None /\
  is_dir st_show (app series_root ["Show (None) (2)"]) = false /\
  link_target st'
    (app series_root ["Show (None) (2)"; "Season 01"; "Show - s01e03 - Unknown Title.mkv"])
    = Some src_e03.
Proof. vm_compute. repeat split. Qed.

(** C6 (Scenario B): [show.s01e02.mkv], resolver result ["N/A"], no
    series directory matching ["Show"]; when the episode-title lookup gives
    nothing (no such episode, or a failure with [stop_on_error] off) the
    episode is linked as [Show - s01e02 - Unknown Title.mkv] in
    [Show/Season 01], a series directory without an id fragment, and the
    link is recorded in the series ledger. *)
Theorem scenario_b_episode_naming : forall stop service titlecase,
  titlecase "show" = "Show" ->
  ((exists eps, season_episodes service NotFound 1 = SvcOk eps /\ find_episode 2 eps = None) \/
   (season_episodes service NotFound 1 = SvcErr /\ stop = false)) ->
  let r := run (process_series stop service titlecase series_root src_e02 fi_e02 NotFound) st_lib in
  fst r = Returned /\
  is_dir (snd r) (app series_root ["Show"]) = true /\
  is_dir (snd r) (app series_root ["Show"; "Season 01"]) = true /\
  link_target (snd r) (app series_root ["Show"; "Season 01"; "Show - s01e02 - Unknown Title.mkv"])
    = Some src_e02 /\
  assoc src_e02 (db_series (snd r))
    = Some (app series_root ["Show"; "Season 01"; "Show - s01e02 - Unknown Title.mkv"]).
Proof.
  intros stop service tc Htc Hse.
  cbv beta iota zeta delta [run process_series bind titlecase_opt ret fi_e02 fi_title fi_series
    py_or get_tmdb_episode_title first_int fi_season fi_episode].
  change (truthy_str (Some "show")) with true. cbv iota beta.
  rewrite Htc.
  destruct Hse as [[eps [Hse Hf]] | [Hse Hstop]]; rewrite Hse; [rewrite Hf | rewrite Hstop];
    vm_compute; repeat split.
Qed.

Lemma scenario_b_episode_naming_witness :
  tc_title "show" = "Show" /\
  let r := run (process_series stop_on_error svc_lib tc_title series_root src_e02 fi_e02 NotFound)
             st_lib in
  fst r = Returned /\
  is_dir (snd r) (app series_root ["Show"]) = true /\
  is_dir (snd r) (app series_root ["Show"; "Season 01"]) = true /\
  link_target (snd r) (app series_root ["Show"; "Season 01"; "Show - s01e02 - Unknown Title.mkv"])
    = Some src_e02 /\
  assoc src_e02 (db_series (snd r))
    = Some (app series_root ["Show"; "Season 01"; "Show - s01e02 - Unknown Title.mkv"]).
Proof.
  assert (Htc : tc_title "show" = "Show") by reflexivity.
  split; [exact Htc|].
  apply (scenario_b_episode_naming stop_on_error svc_lib tc_title Htc).
  left. exists []. split; reflexivity.
Defined.

End PipelineFacts.

Module EffectFacts.
Import PyStr Py Store Handler Frames.

Lemma frame_refl : forall s, frame s s.
Proof. intro s. repeat split. Qed.

Lemma frame_trans : forall s1 s2 s3, frame s1 s2 -> frame s2 s3 -> frame s1 s3.
Proof.
  intros s1 s2 s3 (H1 & H2 & H3) (H4 & H5 & H6).
  repeat split; congruence.
Qed.

Lemma frame_linked_once : forall b src s1 s2 s3,
  frame s1 s2 -> linked_once b src s2 s3 -> linked_once b src s1 s3.
Proof.
  intros b src s1 s2 s3 (H1 & H2 & H3) (l & Hl & H4 & H5 & H6).
  exists l. unfold link_target, db_of in *.
  rewrite H1 in Hl, H4. destruct b; simpl in *; rewrite ?H2, ?H3 in *; auto.
Qed.

Lemma Frame_ret : forall A (a : A), Frame (ret a).
Proof. intros A a s. apply frame_refl. Qed.

Lemma Frame_early_return : forall A, @Frame A early_return.
Proof. intros A s. apply frame_refl. Qed.

Lemma Frame_sys_exit : forall A c, @Frame A (sys_exit c).
Proof. intros A c s. apply frame_refl. Qed.

Lemma Frame_raise : forall A, @Frame A raise.
Proof. intros A s. apply frame_refl. Qed.

Lemma Frame_bind : forall A B (m : M A) (f : A -> M B),
  Frame m -> (forall a, Frame (f a)) -> Frame (bind m f).
Proof.
  intros A B m f Hm Hf s. unfold bind.
  specialize (Hm s). destruct (m s) as [[a|c] s'].
  - exact (frame_trans _ _ _ Hm (Hf a s')).
  - exact Hm.
Qed.

Lemma Frame_Good : forall b src m, Frame m -> Good b src m.
Proof. intros b src m H s. left. apply H. Qed.

Lemma Good_bind : forall A b src (m : M A) (f : A -> M unit),
  Frame m -> (forall a, Good b src (f a)) -> Good b src (bind m f).
Proof.
  intros A b src m f Hm Hf s. unfold bind.
  specialize (Hm s). destruct (m s) as [[a|c] s'].
  - destruct (Hf a s') as [H | H].
    + left. exact (frame_trans _ _ _ Hm H).
    + right. exact (frame_linked_once _ _ _ _ _ Hm H).
  - left. exact Hm.
Qed.

Lemma mkdir_from_frame : forall rest d s s',
  mkdir_from d rest s = Some s' -> frame s s'.
Proof.
  induction rest as [|c rest IH]; intros d s s' H; simpl in H.
  - injection H as <-. apply frame_refl.
  - destruct (is_dir s (app d [c])).
    + exact (IH _ _ _ H).
    + destruct (lexists s (app d [c])); [discriminate|].
      destruct (mem d (st_ro s)); [discriminate|].
      apply IH in H. exact H.
Qed.

Lemma Frame_fs_mkdir_p : forall p, Frame (fs_call (mkdir_p p)).
Proof.
  intros p s. unfold fs_call. destruct (mkdir_p p s) eqn:E; simpl.
  - exact (mkdir_from_frame _ _ _ _ E).
  - apply frame_refl.
Qed.

Lemma Frame_titlecase_opt : forall tc o, Frame (titlecase_opt tc o).
Proof. intros tc [o|] s; apply frame_refl. Qed.

Lemma Frame_has_recorded_symlink : forall b p, Frame (has_recorded_symlink b p).
Proof.
  intros b p s. unfold has_recorded_symlink.
  destruct (assoc p (db_of b s)); apply frame_refl.
Qed.

Lemma Frame_dir_nonempty : forall d, Frame (dir_nonempty d).
Proof.
  intros d s. unfold dir_nonempty.
  destruct (path_exists s d); [destruct (is_dir s d)|]; apply frame_refl.
Qed.

Lemma Frame_list_dir : forall d, Frame (list_dir d).
Proof. intros d s. unfold list_dir. destruct (is_dir s d); apply frame_refl. Qed.

Lemma Frame_get_tmdb_movie_genres : forall stop service id,
  Frame (get_tmdb_movie_genres stop service id).
Proof.
  intros stop service id s. unfold get_tmdb_movie_genres.
  destruct (movie_genres service id); [|destruct stop]; apply frame_refl.
Qed.

Lemma Frame_get_tmdb_series_title_and_year : forall stop service id,
  Frame (get_tmdb_series_title_and_year stop service id).
Proof.
  intros stop service id s. unfold get_tmdb_series_title_and_year.
  destruct (tv_info service id) as [[n d]|]; [|destruct stop]; apply frame_refl.
Qed.

Lemma Frame_get_tmdb_episode_title : forall stop service id se ep,
  Frame (get_tmdb_episode_title stop service id se ep).
Proof.
  intros stop service id se ep s. unfold get_tmdb_episode_title.
  destruct (season_episodes service id se); [|destruct stop]; apply frame_refl.
Qed.

(** A successful [symlink_to] followed by [add_symlink] is [linked_once];
    a failed one leaves links and ledgers alone. *)
Lemma Good_link_and_record : forall stop b src l,
  Good b src (link_and_record stop b src l).
Proof.
  intros stop b src l s. unfold link_and_record, bind, try_fs.
  destruct (symlink_to l src s) as [s1|] eqn:E.
  - right. unfold symlink_to in E.
    destruct (lexists s l) eqn:Hx; [discriminate|].
    destruct (negb (is_dir s (parent l))); [discriminate|].
    destruct (mem (parent l) (st_ro s)); [discriminate|].
    injection E as <-. exists l. split; [|split; [|split]].
    + unfold lexists, is_symlink in Hx.
      destruct (link_target s l); [|reflexivity].
      rewrite !orb_true_r in Hx. discriminate.
    + reflexivity.
    + destruct b; reflexivity.
    + destruct b; reflexivity.
  - left. destruct stop; apply frame_refl.
Qed.

Ltac frame_step :=
  match goal with
  | |- Frame (bind _ _) => apply Frame_bind; [|intros ?]
  | |- Frame (ret _) => apply Frame_ret
  | |- Frame early_return => apply Frame_early_return
  | |- Frame (sys_exit _) => apply Frame_sys_exit
  | |- Frame raise => apply Frame_raise
  | |- Frame (fs_call (mkdir_p _)) => apply Frame_fs_mkdir_p
  | |- Frame (titlecase_opt _ _) => apply Frame_titlecase_opt
  | |- Frame (has_recorded_symlink _ _) => apply Frame_has_recorded_symlink
  | |- Frame (dir_nonempty _) => apply Frame_dir_nonempty
  | |- Frame (list_dir _) => apply Frame_list_dir
  | |- Frame (get_tmdb_movie_genres _ _ _) => apply Frame_get_tmdb_movie_genres
  | |- Frame (get_tmdb_series_title_and_year _ _ _) => apply Frame_get_tmdb_series_title_and_year
  | |- Frame (get_tmdb_episode_title _ _ _ _ _) => apply Frame_get_tmdb_episode_title
  | |- Frame (if ?c then _ else _) => destruct c
  | |- Frame (match ?x with _ => _ end) => destruct x
  end.

Ltac good_step :=
  match goal with
  | |- Good _ _ (bind _ _) => apply Good_bind; [repeat frame_step|intros ?]
  | |- Good _ _ (link_and_record _ _ _ _) => apply Good_link_and_record
  | |- Good _ _ (if ?c then _ else _) => destruct c
  | |- Good _ _ (match ?x with _ => _ end) => destruct x
  | |- Good _ _ _ => apply Frame_Good; repeat frame_step
  end.

Lemma Good_process_movie : forall stop service tc root src fi id,
  Good true src (process_movie stop service tc root src fi id).
Proof. intros. unfold process_movie. cbv zeta. repeat good_step. Qed.

Lemma Good_process_series : forall stop service tc root src fi id,
  Good false src (process_series stop service tc root src fi id).
Proof. intros. unfold process_series. cbv zeta. repeat good_step. Qed.

End EffectFacts.

Module AtomicFacts.
Import PyStr Py Store Handler Frames EffectFacts Fixtures.

Lemma run_snd : forall m s, snd (run m s) = snd (m s).
Proof. intros m s. unfold run. destruct (m s) as [[a|[| |]] s']; reflexivity. Qed.

Lemma snoc_neq : forall A (l : list A) x, app l [x] <> l.
Proof.
  intros A l x H. apply (f_equal (@length A)) in H.
  rewrite length_app in H. simpl in H. lia.
Qed.

Lemma Good_no_link : forall b src m s,
  Good b src m -> st_links (snd (run m s)) = st_links s ->
  db_movies (snd (run m s)) = db_movies s /\ db_series (snd (run m s)) = db_series s.
Proof.
  intros b src m s Hg. rewrite run_snd.
  destruct (Hg s) as [(_ & H2 & H3) | (l & _ & Hl & _)]; intro H.
  - split; assumption.
  - rewrite Hl in H. exfalso. exact (snoc_neq _ _ _ H).
Qed.

(** C8: a run of [process_movie] or [process_series] that leaves the links
    as they were (in particular one whose [symlink_to] raised [OSError])
    leaves both ledgers as they were: no row is put for the source, which
    stays eligible for another attempt. *)
Theorem link_failure_keeps_ledgers : forall stop service titlecase (movies_root series_root : path)
    file_path fi tmdb_id st,
  (st_links (snd (run (process_movie stop service titlecase movies_root file_path fi tmdb_id) st))
     = st_links st ->
   db_movies (snd (run (process_movie stop service titlecase movies_root file_path fi tmdb_id) st))
     = db_movies st /\
   db_series (snd (run (process_movie stop service titlecase movies_root file_path fi tmdb_id) st))
     = db_series st) /\
  (st_links (snd (run (process_series stop service titlecase series_root file_path fi tmdb_id) st))
     = st_links st ->
   db_movies (snd (run (process_series stop service titlecase series_root file_path fi tmdb_id) st))
     = db_movies st /\
   db_series (snd (run (process_series stop service titlecase series_root file_path fi tmdb_id) st))
     = db_series st).
Proof.
  intros. split.
  - apply (Good_no_link true file_path). apply Good_process_movie.
  - apply (Good_no_link false file_path). apply Good_process_series.
Qed.

Lemma link_failure_keeps_ledgers_witness :
  let sm := snd (run (process_movie stop_on_error svc_lib tc_title movie_root src_movie fi_movie
                        (TmdbId 12345)) st_readonly) in
  let ss := snd (run (process_series stop_on_error svc_lib tc_title series_root src_e02 fi_e02
                        NotFound) st_readonly) in
  (st_links sm = st_links st_readonly /\
   db_movies sm = db_movies st_readonly /\ db_series sm = db_series st_readonly) /\
  (st_links ss = st_links st_readonly /\
   db_movies ss = db_movies st_readonly /\ db_series ss = db_series st_readonly).
Proof.
  assert (Hm : st_links (snd (run (process_movie stop_on_error svc_lib tc_title movie_root src_movie
                  fi_movie (TmdbId 12345)) st_readonly)) = st_links st_readonly)
    by (vm_compute; reflexivity).
  assert (Hs : st_links (snd (run (process_series stop_on_error svc_lib tc_title series_root src_e02
                  fi_e02 NotFound) st_readonly)) = st_links st_readonly)
    by (vm_compute; reflexivity).
  pose proof (link_failure_keeps_ledgers stop_on_error svc_lib tc_title movie_root series_root
                src_movie fi_movie (TmdbId 12345) st_readonly) as [H1 _].
  pose proof (link_failure_keeps_ledgers stop_on_error svc_lib tc_title movie_root series_root
                src_e02 fi_e02 NotFound st_readonly) as [_ H2].
  split; [split; [exact Hm | exact (H1 Hm)] | split; [exact Hs | exact (H2 Hs)]].
Defined.

End AtomicFacts.

Module LedgerFacts.
Import PyStr Py Store Handler Frames Fixtures.

Lemma path_eqb_eq : forall p q, path_eqb p q = true <-> p = q.
Proof.
  induction p as [|a p IH]; intros [|b q]; simpl; split; intro H; try discriminate; try congruence.
  - apply andb_prop in H as [H1 H2]. apply String.eqb_eq in H1. apply IH in H2. congruence.
  - injection H as <- <-. rewrite String.eqb_refl. apply IH. reflexivity.
Qed.

Lemma In_db_delete : forall k r db, In r (db_delete k db) <-> In r db /\ k <> fst r.
Proof.
  intros k r db. unfold db_delete. rewrite filter_In.
  destruct (path_eqb k (fst r)) eqn:E; simpl.
  - apply path_eqb_eq in E. split; [intros [_ H]; discriminate | intros [_ H]; contradiction].
  - split; intros [H1 H2]; split; auto.
    + intro Hk. apply path_eqb_eq in Hk. congruence.
Qed.

Lemma row_valid_same : forall b s s' r, same b s s' -> row_valid s' r = row_valid s r.
Proof.
  intros b s s' r (H1 & H2 & H3 & _).
  unfold row_valid, path_exists, is_symlink, is_dir, is_file, link_target.
  rewrite H1, H2, H3. reflexivity.
Qed.

Lemma fold_same : forall b l s, same b s (fold_left (validate_row b) l s).
Proof.
  intros b l. induction l as [|row l IH]; intro s; simpl.
  - repeat split.
  - destruct (IH (validate_row b s row)) as (H1 & H2 & H3 & H4 & H5).
    unfold validate_row in *. destruct (row_valid s row).
    + repeat split; assumption.
    + repeat split; try assumption. rewrite H5. destruct b; reflexivity.
Qed.

Lemma fold_in : forall b l s r,
  In r (db_of b (fold_left (validate_row b) l s)) <->
  In r (db_of b s) /\ (forall row, In row l -> row_valid s row = false -> fst row <> fst r).
Proof.
  intros b l. induction l as [|row l IH]; intros s r; simpl.
  - split; [intro H; split; [exact H | intros _ []] | intros [H _]; exact H].
  - rewrite IH.
    assert (Hs : same b s (validate_row b s row)).
    { unfold validate_row. destruct (row_valid s row); [repeat split|].
      repeat split. destruct b; reflexivity. }
    assert (Hv : forall r', row_valid (validate_row b s row) r' = row_valid s r')
      by (intro r'; apply (row_valid_same b); exact Hs).
    unfold validate_row at 1. destruct (row_valid s row) eqn:Er.
    + split.
      * intros [H1 H2]. split; [exact H1|]. intros row' [<-|Hin] Hf; [congruence|].
        apply H2; [exact Hin|]. rewrite Hv. exact Hf.
      * intros [H1 H2]. split; [exact H1|]. intros row' Hin Hf.
        apply H2; [right; exact Hin|]. rewrite <- Hv. exact Hf.
    + assert (Hd : db_of b (set_db b s (db_delete (fst row) (db_of b s)))
                   = db_delete (fst row) (db_of b s)) by (destruct b; reflexivity).
      rewrite Hd, In_db_delete. split.
      * intros [[H1 H0] H2]. split; [exact H1|]. intros row' [<-|Hin] Hf; [exact H0|].
        apply H2; [exact Hin|]. rewrite Hv. exact Hf.
      * intros [H1 H2]. split; [split; [exact H1 | apply H2; [left; reflexivity | exact Er]]|].
        intros row' Hin Hf. apply H2; [right; exact Hin|]. rewrite <- Hv. exact Hf.
Qed.

Lemma validate_in : forall b s r,
  NoDup (map fst (db_of b s)) ->
  In r (db_of b (validate b s)) <-> In r (db_of b s) /\ row_valid s r = true.
Proof.
  intros b s r Hnd. unfold validate. rewrite fold_in. split.
  - intros [H1 H2]. split; [exact H1|].
    destruct (row_valid s r) eqn:E; [reflexivity|].
    exfalso. exact (H2 r H1 E eq_refl).
  - intros [H1 H2]. split; [exact H1|]. intros row Hin Hf Hk.
    assert (row = r).
    { clear - Hnd Hin H1 Hk. induction (db_of b s) as [|x l IHl]; [contradiction|].
      inversion Hnd as [|y l' Hx Hnd']; subst.
      destruct Hin as [<-|Hin], H1 as [<-|H1]; try reflexivity.
      - exfalso. apply Hx. rewrite Hk. apply in_map. exact H1.
      - exfalso. apply Hx. rewrite <- Hk. apply in_map. exact Hin.
      - apply IHl; assumption. }
    subst row. congruence.
Qed.

Lemma validate_same : forall b s, same b s (validate b s).
Proof. intros b s. apply fold_same. Qed.

(** C9: with [file_path] the primary key of each table, after
    [validate_symlinks] a row is in a ledger exactly when it was there before
    and its link existed and was a symlink; the filesystem is untouched. *)
Theorem validate_symlinks_self_heals : forall st,
  NoDup (map fst (db_movies st)) -> NoDup (map fst (db_series st)) ->
  (forall r, In r (db_movies (validate_symlinks st)) <-> In r (db_movies st) /\ row_valid st r = true) /\
  (forall r, In r (db_series (validate_symlinks st)) <-> In r (db_series st) /\ row_valid st r = true) /\
  st_dirs (validate_symlinks st) = st_dirs st /\
  st_files (validate_symlinks st) = st_files st /\
  st_links (validate_symlinks st) = st_links st.
Proof.
  intros st Hm Hs. unfold validate_symlinks.
  set (s1 := validate true st).
  destruct (validate_same true st) as (A1 & A2 & A3 & A4 & A5). fold s1 in A1, A2, A3, A4, A5.
  destruct (validate_same false s1) as (B1 & B2 & B3 & B4 & B5).
  simpl in A5, B5.
  split; [|split; [|repeat split; congruence]].
  - intro r. rewrite B5. exact (validate_in true st r Hm).
  - intro r. rewrite (validate_in false s1 r) by (simpl; rewrite A5; exact Hs).
    simpl. rewrite A5. rewrite (row_valid_same true st s1 r (validate_same true st)). reflexivity.
Qed.

(** A stale movie row (its link was removed) next to a live series row. *)
Lemma validate_symlinks_self_heals_witness :
  NoDup (map fst (db_movies st_stale)) /\ NoDup (map fst (db_series st_stale)) /\
  ((forall r, In r (db_movies (validate_symlinks st_stale)) <->
              In r (db_movies st_stale) /\ row_valid st_stale r = true) /\
   (forall r, In r (db_series (validate_symlinks st_stale)) <->
              In r (db_series st_stale) /\ row_valid st_stale r = true) /\
   st_dirs (validate_symlinks st_stale) = st_dirs st_stale /\
   st_files (validate_symlinks st_stale) = st_files st_stale /\
   st_links (validate_symlinks st_stale) = st_links st_stale) /\
  db_movies (validate_symlinks st_stale) = [] /\
  db_series (validate_symlinks st_stale) = db_series st_stale.
Proof.
  assert (Hm : NoDup (map fst (db_movies st_stale))) by (simpl; repeat constructor; intros []).
  assert (Hs : NoDup (map fst (db_series st_stale))) by (simpl; repeat constructor; intros []).
  split; [exact Hm|]. split; [exact Hs|]. split; [exact (validate_symlinks_self_heals st_stale Hm Hs)|].
  split; vm_compute; reflexivity.
Defined.

End LedgerFacts.


(** ** Where [process_series] puts an episode whose series directory
    already exists *)

Module SeriesLinkFacts.
Import PyStr Py SeriesStr Store Handler Frames Fixtures EffectFacts AtomicFacts LedgerFacts SeriesDirFacts.

Lemma mem_In : forall p l, mem p l = true <-> In p l.
Proof.
  intros p l. unfold mem. rewrite existsb_exists. split.
  - intros [x [Hx He]]. apply path_eqb_eq in He. subst. exact Hx.
  - intros H. exists p. split; [exact H|]. apply path_eqb_eq. reflexivity.
Qed.

Lemma confined_refl : forall q s, confined q s s.
Proof. intros q s. repeat split; auto; intros; contradiction. Qed.

Lemma confined_trans : forall q s1 s2 s3,
  confined q s1 s2 -> confined q s2 s3 -> confined q s1 s3.
Proof.
  intros q s1 s2 s3 (G1 & D1 & L1) (G2 & D2 & L2). split; [|split].
  - auto.
  - intros d H3 H1. destruct (in_dec (list_eq_dec string_dec) d (st_dirs s2)) as [H2|H2].
    + exact (D1 d H2 H1).
    + exact (D2 d H3 H2).
  - intros l t H3 H1.
    assert (Hdec : forall x y : path * path, {x = y} + {x <> y})
      by (decide equality; apply list_eq_dec, string_dec).
    destruct (in_dec Hdec (l, t) (st_links s2)) as [H2|H2].
    + exact (L1 l t H2 H1).
    + exact (L2 l t H3 H2).
Qed.

Lemma Confined_bind : forall A B q (m : M A) (f : A -> M B),
  Confined q m -> (forall a, Confined q (f a)) -> Confined q (bind m f).
Proof.
  intros A B q m f Hm Hf s. unfold bind.
  specialize (Hm s). destruct (m s) as [[a|c] s'].
  - exact (confined_trans _ _ _ _ Hm (Hf a s')).
  - exact Hm.
Qed.

Lemma Confined_pure : forall A q (m : M A), (forall s, snd (m s) = s) -> Confined q m.
Proof. intros A q m H s. rewrite H. apply confined_refl. Qed.

Lemma mkdir_from_confined : forall q rest done s s',
  mkdir_from done rest s = Some s' -> (exists r, app (app done rest) r = q) -> confined q s s'.
Proof.
  intros q rest. induction rest as [|c rest IH]; intros done s s' H Hq; simpl in H.
  - injection H as <-. apply confined_refl.
  - assert (Hq' : exists r, app (app (app done [c]) rest) r = q).
    { destruct Hq as [r <-]. exists r. rewrite <- !app_assoc. reflexivity. }
    destruct (is_dir s (app done [c])); [exact (IH _ _ _ H Hq')|].
    destruct (lexists s (app done [c])); [discriminate|].
    destruct (mem done (st_ro s)); [discriminate|].
    apply (confined_trans q s (set_dirs s (app (st_dirs s) [app done [c]]))).
    + split; [|split]; cbn [set_dirs st_dirs st_links].
      * intros d Hd. apply in_or_app. left. exact Hd.
      * intros d Hd Hn. apply in_app_or in Hd as [Hd|[<-|[]]]; [contradiction|].
        destruct Hq as [r <-]. exists (app rest r). rewrite <- !app_assoc. reflexivity.
      * intros l t Hl Hn. contradiction.
    + exact (IH _ _ _ H Hq').
Qed.

Lemma Confined_mkdir : forall q p, (exists r, app p r = q) -> Confined q (fs_call (mkdir_p p)).
Proof.
  intros q p Hq s. unfold fs_call, mkdir_p. destruct (mkdir_from [] p s) eqn:E; simpl.
  - exact (mkdir_from_confined q p [] s s0 E Hq).
  - apply confined_refl.
Qed.

Lemma Confined_link_and_record : forall q stop b src l,
  (exists r, l = app q r) -> Confined q (link_and_record stop b src l).
Proof.
  intros q stop b src l Hq s. unfold link_and_record, bind, try_fs.
  destruct (symlink_to l src s) as [s1|] eqn:E.
  - unfold symlink_to in E.
    destruct (lexists s l); [discriminate|].
    destruct (negb (is_dir s (parent l))); [discriminate|].
    destruct (mem (parent l) (st_ro s)); [discriminate|].
    injection E as <-. unfold add_symlink. cbn [snd].
    split; [|split]; cbn [set_db set_links st_dirs st_links].
    + auto.
    + intros d Hd Hn. contradiction.
    + intros l' t Hl Hn. apply in_app_or in Hl as [Hl|[He|[]]]; [contradiction|].
      injection He as -> ->. exact Hq.
  - destruct stop; apply confined_refl.
Qed.

Lemma mkdir_from_is_dir : forall rest done s s',
  mkdir_from done rest s = Some s' -> rest <> [] -> is_dir s' (app done rest) = true.
Proof.
  induction rest as [|c rest IH]; intros done s s' H Hne; [congruence|].
  simpl in H. replace (app done (c :: rest)) with (app (app done [c]) rest)
    by (rewrite <- app_assoc; reflexivity).
  destruct rest as [|c' rest].
  - rewrite app_nil_r. destruct (is_dir s (app done [c])) eqn:Hd.
    + simpl in H. injection H as <-. exact Hd.
    + destruct (lexists s (app done [c])); [discriminate|].
      destruct (mem done (st_ro s)); [discriminate|].
      simpl in H. injection H as <-. unfold is_dir. apply mem_In. cbn [set_dirs st_dirs].
      apply in_or_app. right. left. reflexivity.
  - destruct (is_dir s (app done [c])).
    + exact (IH _ _ _ H ltac:(discriminate)).
    + destruct (lexists s (app done [c])); [discriminate|].
      destruct (mem done (st_ro s)); [discriminate|].
      exact (IH _ _ _ H ltac:(discriminate)).
Qed.

Lemma bind_val : forall A B (m : M A) (f : A -> M B) s a s1,
  m s = (Val a, s1) -> bind m f s = f a s1.
Proof. intros A B m f s a s1 H. unfold bind. rewrite H. reflexivity. Qed.

Lemma bind_ctl : forall A B (m : M A) (f : A -> M B) s c s1,
  m s = (Ctl c, s1) -> bind m f s = (Ctl c, s1).
Proof. intros A B m f s c s1 H. unfold bind. rewrite H. reflexivity. Qed.

Lemma split_slash_last : forall s acc c, c <> "/"%char ->
  exists y, In y (split_slash_acc acc (s ++ String c "")) /\ y <> "".
Proof.
  induction s as [|d s IH]; intros acc c Hc.
  - cbn [append split_slash_acc]. destruct (Ascii.eqb c "/"%char) eqn:E.
    + apply Ascii.eqb_eq in E. contradiction.
    + exists (acc ++ String c ""). split; [left; reflexivity|]. destruct acc; discriminate.
  - cbn [append split_slash_acc]. destruct (Ascii.eqb d "/"%char).
    + destruct (IH "" c Hc) as [y [Hy Hne]]. exists y. split; [right; exact Hy|exact Hne].
    + apply IH, Hc.
Qed.

Lemma join_closing_nonempty : forall root a, join root (a ++ ")") <> [].
Proof.
  intros root a H. destruct (split_slash_last a "" ")"%char ltac:(discriminate)) as [y [Hy Hne]].
  unfold join in H. apply app_eq_nil in H as [_ H].
  assert (Hin : In y (filter (fun x => negb (String.eqb x "")) (split_slash_acc "" (a ++ ")")))).
  { apply filter_In. split; [exact Hy|]. apply negb_true_iff, String.eqb_neq, Hne. }
  rewrite H in Hin. exact Hin.
Qed.

Lemma filter_nonempty : forall A (f : A -> bool) l, existsb f l = true -> filter f l <> [].
Proof.
  intros A f l H. apply existsb_exists in H as [y [Hy Hf]]. intros Hn.
  assert (Hin : In y (filter f l)) by (apply filter_In; auto). rewrite Hn in Hin. exact Hin.
Qed.

Lemma Confined_list_dir : forall q d, Confined q (list_dir d).
Proof. intros q d. apply Confined_pure. intros s. unfold list_dir. destruct (is_dir s d); reflexivity. Qed.

Lemma Confined_early_return : forall A q, Confined q (@early_return A).
Proof. intros A q. apply Confined_pure. reflexivity. Qed.

Lemma pure_get_tmdb_episode_title : forall stop service id a b s,
  snd (get_tmdb_episode_title stop service id a b s) = s.
Proof.
  intros. unfold get_tmdb_episode_title.
  destruct (season_episodes service id a); [|destruct stop]; reflexivity.
Qed.

Ltac confined_step :=
  match goal with
  | |- Confined _ (bind _ _) => apply Confined_bind; [|intros ?]
  | |- Confined _ (fs_call (mkdir_p _)) => apply Confined_mkdir; exists []; apply app_nil_r
  | |- Confined _ (list_dir _) => apply Confined_list_dir
  | |- Confined _ early_return => apply Confined_early_return
  | |- Confined _ (link_and_record _ _ _ _) => apply Confined_link_and_record; eexists; reflexivity
  | |- Confined _ (match ?x with _ => _ end) => destruct x
  end.

Ltac state_unchanged :=
  cbn [snd]; split; [apply confined_refl | intros Hl; contradiction Hl; reflexivity].

(** C2 (amended): in [process_series], an existing series directory whose
    normalised name equals that of the title [T] is never reused: the
    collision loop picks [T (Y) (2)], whose normalised name differs from
    every match; every directory the call creates lies on the way to
    [series_root/T (Y) (2)/Season NN], every link it adds lies under that
    season directory, and when a link is added [series_root/T (Y) (2)] is a
    directory afterwards (created when absent). *)
Theorem series_match_gets_new_dir : forall stop service titlecase (series_root : path)
    file_path fi tmdb_id st x,
  py_or (fi_title fi) (fi_series fi) = Some x ->
  let t := if truthy_str (Some (titlecase x)) then titlecase x
           else clean_directory_name (last_name (parent file_path)) in
  let n := t ++ " (" ++ str_opt (find_year t) ++ ") (2)" in
  let season_dir := join (join series_root n) ("Season " ++ fmt02 (first_int (fi_season fi))) in
  existsb (fun d => String.eqb (normalize_dir_name d) (normalize_dir_name t))
          (iterdir st series_root) = true ->
  let st' := snd (run (process_series stop service titlecase series_root file_path fi tmdb_id) st) in
  (forall d, In d (iterdir st series_root) -> normalize_dir_name d = normalize_dir_name t ->
     normalize_dir_name n <> normalize_dir_name d) /\
  (forall d, In d (st_dirs st') -> ~ In d (st_dirs st) -> exists r, app d r = season_dir) /\
  (forall l tgt, In (l, tgt) (st_links st') -> ~ In (l, tgt) (st_links st) ->
     exists r, l = app season_dir r) /\
  (st_links st' <> st_links st -> is_dir st' (join series_root n) = true).
Proof.
  intros stop service tc root src fi id st x Hx t n season_dir Hex st'.
  split.
  { intros d _ Hd Heq. apply (second_candidate_differs t).
    change (normalize_dir_name n = normalize_dir_name t). rewrite Heq, Hd. reflexivity. }
  assert (Hgoal : confined season_dir st st' /\
                  (st_links st' <> st_links st -> is_dir st' (join root n) = true)).
  2:{ destruct Hgoal as [(_ & HD & HL) HI]. auto. }
  unfold st'. rewrite run_snd. unfold process_series.
  rewrite (bind_val _ _ _ _ st (tc x) st) by (unfold titlecase_opt; rewrite Hx; reflexivity).
  cbv beta zeta. fold t.
  destruct (is_type_movie fi).
  { rewrite (bind_ctl _ _ _ _ st CReturn st) by reflexivity. state_unchanged. }
  rewrite (bind_val _ _ _ _ st tt st) by reflexivity. cbv beta.
  rewrite (bind_val _ _ _ _ st (match assoc src (db_of false st) with
                                | Some l => is_symlink st l | None => false end) st)
    by (unfold has_recorded_symlink; destruct (assoc src (db_of false st)); reflexivity).
  cbv beta.
  destruct (match assoc src (db_of false st) with Some l => is_symlink st l | None => false end).
  { state_unchanged. }
  destruct (negb _).
  { destruct stop; state_unchanged. }
  destruct (get_tmdb_episode_title stop service id (first_int (fi_season fi))
              (first_int (fi_episode fi)) st) as [[e|c] s0] eqn:E;
    assert (Hs0 : s0 = st) by (rewrite <- (pure_get_tmdb_episode_title stop service id
                                 (first_int (fi_season fi)) (first_int (fi_episode fi)) st), E;
                               reflexivity); subst s0.
  2:{ rewrite (bind_ctl _ _ _ _ _ _ _ E). state_unchanged. }
  rewrite (bind_val _ _ _ _ _ _ _ E). cbv beta.
  destruct (is_dir st root) eqn:Hroot.
  2:{ rewrite (bind_ctl _ _ _ _ st CExc st) by (unfold list_dir; rewrite Hroot; reflexivity).
      state_unchanged. }
  rewrite (bind_val _ _ _ _ st (iterdir st root) st)
    by (unfold list_dir; rewrite Hroot; reflexivity).
  cbv beta.
  pose proof (filter_nonempty _ _ _ Hex) as Hne.
  destruct (filter (fun d => String.eqb (normalize_dir_name d) (normalize_dir_name t))
              (iterdir st root)) as [|d0 ds] eqn:Hf; [congruence|].
  assert (Hall : Forall (fun d => normalize_dir_name d = normalize_dir_name t) (d0 :: ds)).
  { apply Forall_forall. intros y Hy. rewrite <- Hf in Hy. apply filter_In in Hy as [_ Hy].
    apply String.eqb_eq, Hy. }
  rewrite (proj1 (pick_series_dir_counter_two t (d0 :: ds) ltac:(discriminate) Hall)).
  fold n.
  rewrite (bind_val _ _ _ _ st (join root n) st) by reflexivity. cbv beta.
  destruct (mkdir_p (join root n) st) as [s1|] eqn:Hm.
  2:{ rewrite (bind_ctl _ _ _ _ st CExc st) by (unfold fs_call; rewrite Hm; reflexivity).
      state_unchanged. }
  rewrite (bind_val _ _ _ _ st tt s1) by (unfold fs_call; rewrite Hm; reflexivity).
  assert (H1 : confined season_dir st s1).
  { apply (mkdir_from_confined season_dir (join root n) [] st s1 Hm).
    eexists; reflexivity. }
  assert (Hd1 : is_dir s1 (join root n) = true).
  { apply (mkdir_from_is_dir (join root n) [] st s1 Hm).
    assert (Hn : n = (t ++ " (" ++ str_opt (find_year t) ++ ") (2") ++ ")").
    { unfold n. rewrite <- !CleanFacts.str_app_assoc_clean. reflexivity. }
    rewrite Hn. apply join_closing_nonempty. }
  match goal with |- context [snd (?m s1)] =>
    assert (Hc : Confined season_dir m) by (repeat confined_step);
    specialize (Hc s1); set (s2 := snd (m s1)) in *
  end.
  split; [exact (confined_trans _ _ _ _ H1 Hc)|].
  intros _. destruct Hc as [Hg _]. unfold is_dir in *. apply mem_In. apply Hg. apply mem_In, Hd1.
Qed.

Lemma series_match_gets_new_dir_witness :
  py_or (fi_title fi_e03) (fi_series fi_e03) = Some "show" /\
  let t := if truthy_str (Some (tc_title "show")) then tc_title "show"
           else clean_directory_name (last_name (parent src_e03)) in
  let n := t ++ " (" ++ str_opt (find_year t) ++ ") (2)" in
  let season_dir := join (join series_root n) ("Season " ++ fmt02 (first_int (fi_season fi_e03))) in
  existsb (fun d => String.eqb (normalize_dir_name d) (normalize_dir_name t))
          (iterdir st_show series_root) = true /\
  let st' := snd (run (process_series stop_on_error svc_lib tc_title series_root src_e03 fi_e03
                         NotFound) st_show) in
  (forall d, In d (iterdir st_show series_root) -> normalize_dir_name d = normalize_dir_name t ->
     normalize_dir_name n <> normalize_dir_name d) /\
  (forall d, In d (st_dirs st') -> ~ In d (st_dirs st_show) -> exists r, app d r = season_dir) /\
  (forall l tgt, In (l, tgt) (st_links st') -> ~ In (l, tgt) (st_links st_show) ->
     exists r, l = app season_dir r) /\
  (st_links st' <> st_links st_show -> is_dir st' (join series_root n) = true).
Proof.
  assert (Hx : py_or (fi_title fi_e03) (fi_series fi_e03) = Some "show") by reflexivity.
  split; [exact Hx|].
  assert (Hex : existsb (fun d => String.eqb (normalize_dir_name d)
                                    (normalize_dir_name (tc_title "show")))
                        (iterdir st_show series_root) = true) by (vm_compute; reflexivity).
  split; [exact Hex|].
  exact (series_match_gets_new_dir stop_on_error svc_lib tc_title series_root src_e03 fi_e03
           NotFound st_show "show" Hx Hex).
Defined.

End SeriesLinkFacts.

(* ------------------------------------------------------------------ *)
(** ** The ledgers as maps: [add_symlink], [get_symlink], [remove_symlink] *)

Module LedgerMapFacts.
Import PyStr Py Store Handler Frames EffectFacts LedgerFacts Fixtures.

Lemma path_eqb_refl : forall p, path_eqb p p = true.
Proof. intro p. apply path_eqb_eq. reflexivity. Qed.

Lemma assoc_app : forall k l1 l2,
  assoc k (app l1 l2) = match assoc k l1 with Some v => Some v | None => assoc k l2 end.
Proof.
  intros k l1 l2. induction l1 as [|[k' v'] l1 IH]; simpl; [reflexivity|].
  destruct (path_eqb k k'); [reflexivity | exact IH].
Qed.

Lemma assoc_db_delete : forall k k' db,
  assoc k' (db_delete k db) = if path_eqb k' k then None else assoc k' db.
Proof.
  intros k k' db. induction db as [|[a v] db IH]; simpl.
  - destruct (path_eqb k' k); reflexivity.
  - destruct (path_eqb k a) eqn:Eka; simpl.
    + apply path_eqb_eq in Eka. subst a. rewrite IH.
      destruct (path_eqb k' k); reflexivity.
    + rewrite IH. destruct (path_eqb k' k) eqn:E1; [|reflexivity].
      apply path_eqb_eq in E1. subst k'. rewrite Eka. reflexivity.
Qed.

Lemma assoc_db_replace : forall k v k' db,
  assoc k' (db_replace k v db) = if path_eqb k' k then Some v else assoc k' db.
Proof.
  intros k v k' db. unfold db_replace. rewrite assoc_app, assoc_db_delete.
  destruct (path_eqb k' k) eqn:E; simpl; rewrite ?E; [reflexivity|].
  destruct (assoc k' db); reflexivity.
Qed.

Lemma get_symlink_db_of : forall b k st, get_symlink b k st = assoc k (db_of b st).
Proof. reflexivity. Qed.

(** [get_symlink] after [add_symlink]: the new path for that key, the old
    answer for every other key, the other ledger untouched. *)
Theorem add_symlink_get_symlink : forall b k v k' st,
  get_symlink b k' (snd (add_symlink b k v st))
    = (if path_eqb k' k then Some v else get_symlink b k' st) /\
  get_symlink (negb b) k' (snd (add_symlink b k v st)) = get_symlink (negb b) k' st.
Proof.
  intros b k v k' st. rewrite !get_symlink_db_of. unfold add_symlink; simpl.
  split.
  - replace (db_of b (set_db b st (db_replace k v (db_of b st)))) with (db_replace k v (db_of b st))
      by (destruct b; reflexivity).
    apply assoc_db_replace.
  - destruct b; reflexivity.
Qed.

Theorem remove_symlink_get_symlink : forall b k k' st,
  get_symlink b k' (snd (remove_symlink b k st))
    = (if path_eqb k' k then None else get_symlink b k' st) /\
  get_symlink (negb b) k' (snd (remove_symlink b k st)) = get_symlink (negb b) k' st.
Proof.
  intros b k k' st. rewrite !get_symlink_db_of. unfold remove_symlink; simpl.
  split.
  - replace (db_of b (set_db b st (db_delete k (db_of b st)))) with (db_delete k (db_of b st))
      by (destruct b; reflexivity).
    apply assoc_db_delete.
  - destruct b; reflexivity.
Qed.

Lemma nodup_db_delete : forall k db,
  NoDup (map fst db) -> NoDup (map fst (db_delete k db)).
Proof.
  intros k db. induction db as [|[a v] db IH]; intro H; simpl; [constructor|].
  inversion H as [|? ? Hn Hd]; subst.
  destruct (negb (path_eqb k a)); simpl; [|apply IH; exact Hd].
  constructor; [|apply IH; exact Hd].
  intro Hin. apply Hn. apply in_map_iff in Hin as [[x y] [Hx Hin]]. simpl in Hx. subst x.
  unfold db_delete in Hin. apply filter_In in Hin as [Hin _].
  apply in_map_iff. exists (a, y). split; [reflexivity | exact Hin].
Qed.

Lemma nodup_db_replace : forall k v db,
  NoDup (map fst db) -> NoDup (map fst (db_replace k v db)).
Proof.
  intros k v db H. unfold db_replace. rewrite map_app. simpl.
  apply NoDup_app; [apply nodup_db_delete; exact H | repeat constructor; intros [] |].
  intros x Hx [<-|[]].
  apply in_map_iff in Hx as [[a y] [Ha Hin]]. simpl in Ha. subst a.
  unfold db_delete in Hin. apply filter_In in Hin as [_ Hf].
  rewrite path_eqb_refl in Hf. discriminate.
Qed.

Lemma nodup_set_db : forall b st db,
  NoDup (map fst (db_movies st)) -> NoDup (map fst (db_series st)) -> NoDup (map fst db) ->
  NoDup (map fst (db_movies (set_db b st db))) /\ NoDup (map fst (db_series (set_db b st db))).
Proof. intros [|] st db H1 H2 H3; simpl; split; assumption. Qed.

Lemma nodup_db_of : forall b st,
  NoDup (map fst (db_movies st)) -> NoDup (map fst (db_series st)) -> NoDup (map fst (db_of b st)).
Proof. intros [|] st H1 H2; assumption. Qed.

Lemma nodup_fold : forall b l s,
  NoDup (map fst (db_movies s)) -> NoDup (map fst (db_series s)) ->
  NoDup (map fst (db_movies (fold_left (validate_row b) l s))) /\
  NoDup (map fst (db_series (fold_left (validate_row b) l s))).
Proof.
  intros b l. induction l as [|row l IH]; intros s H1 H2; simpl; [split; assumption|].
  destruct (row_valid s row) eqn:Ev.
  { replace (validate_row b s row) with s by (unfold validate_row; rewrite Ev; reflexivity).
    apply IH; assumption. }
  replace (validate_row b s row) with (set_db b s (db_delete (fst row) (db_of b s)))
    by (unfold validate_row; rewrite Ev; reflexivity).
  destruct (nodup_set_db b s (db_delete (fst row) (db_of b s)) H1 H2) as [H3 H4];
    [apply nodup_db_delete, nodup_db_of; assumption|].
  apply IH; assumption.
Qed.

Lemma nodup_good : forall b src m st,
  Good b src m ->
  NoDup (map fst (db_movies st)) -> NoDup (map fst (db_series st)) ->
  NoDup (map fst (db_movies (snd (run m st)))) /\ NoDup (map fst (db_series (snd (run m st)))).
Proof.
  intros b src m st Hg H1 H2. rewrite AtomicFacts.run_snd.
  destruct (Hg st) as [(_ & E1 & E2) | (l & _ & _ & Ed & Eo)].
  - rewrite E1, E2. split; assumption.
  - assert (Hr : NoDup (map fst (db_of b (snd (m st))))).
    { rewrite Ed. apply nodup_db_replace, nodup_db_of; assumption. }
    destruct b; simpl in Ed, Eo, Hr; rewrite ?Eo; split; assumption.
Qed.

(** Every writer of the ledgers keeps [file_path] a key of each table: the
    [PRIMARY KEY] constraint is never broken by [add_symlink],
    [remove_symlink], [process_movie], [process_series] or
    [validate_symlinks]. *)
Theorem ledger_keys_stay_unique : forall stop service titlecase (movies_root series_root : path)
    src fi tmdb_id b k v st,
  NoDup (map fst (db_movies st)) -> NoDup (map fst (db_series st)) ->
  let ok s := NoDup (map fst (db_movies s)) /\ NoDup (map fst (db_series s)) in
  ok (snd (add_symlink b k v st)) /\ ok (snd (remove_symlink b k st)) /\
  ok (snd (run (process_movie stop service titlecase movies_root src fi tmdb_id) st)) /\
  ok (snd (run (process_series stop service titlecase series_root src fi tmdb_id) st)) /\
  ok (validate_symlinks st).
Proof.
  intros stop service tc mroot sroot src fi id b k v st H1 H2 ok.
  split; [|split; [|split; [|split]]].
  - apply nodup_set_db; try assumption. apply nodup_db_replace, nodup_db_of; assumption.
  - apply nodup_set_db; try assumption. apply nodup_db_delete, nodup_db_of; assumption.
  - apply (nodup_good true src); [apply Good_process_movie | assumption | assumption].
  - apply (nodup_good false src); [apply Good_process_series | assumption | assumption].
  - unfold validate_symlinks, validate.
    destruct (nodup_fold true (db_of true st) st H1 H2) as [H3 H4].
    apply nodup_fold; assumption.
Qed.

Lemma ledger_keys_stay_unique_witness :
  NoDup (map fst (db_movies st_show)) /\ NoDup (map fst (db_series st_show)) /\
  NoDup (map fst (db_series (snd (run (process_series true svc_lib tc_title series_root src_e03
                                        fi_e03 NotFound) st_show)))).
Proof.
  assert (H1 : NoDup (map fst (db_movies st_show))) by constructor.
  assert (H2 : NoDup (map fst (db_series st_show))) by (repeat constructor; simpl; tauto).
  split; [exact H1|]. split; [exact H2|].
  exact (proj2 (proj1 (proj2 (proj2 (proj2 (ledger_keys_stay_unique true svc_lib tc_title movie_root
           series_root src_e03 fi_e03 NotFound true src_e03 [] st_show H1 H2)))))).
Defined.

End LedgerMapFacts.

(* ------------------------------------------------------------------ *)
(** ** Re-running: [validate_symlinks] and a second [process_*] call *)

Module RerunFacts.
Import PyStr Py Store Handler Frames EffectFacts LedgerFacts LedgerMapFacts Fixtures.

Lemma fold_all_valid : forall b l s,
  (forall r, In r l -> row_valid s r = true) -> fold_left (validate_row b) l s = s.
Proof.
  intros b l. induction l as [|row l IH]; intros s H; simpl; [reflexivity|].
  replace (validate_row b s row) with s
    by (unfold validate_row; rewrite (H row (or_introl eq_refl)); reflexivity).
  apply IH. intros r Hr. apply H. right. exact Hr.
Qed.

Lemma validate_rows_valid : forall b s r,
  In r (db_of b (validate b s)) -> row_valid s r = true.
Proof.
  intros b s r Hin. unfold validate in Hin. apply fold_in in Hin as [Hin H].
  destruct (row_valid s r) eqn:E; [reflexivity|].
  exfalso. exact (H r Hin E eq_refl).
Qed.

Lemma validate_fixed : forall b s,
  (forall r, In r (db_of b s) -> row_valid s r = true) -> validate b s = s.
Proof. intros b s H. unfold validate. apply fold_all_valid. exact H. Qed.

(** [validate_symlinks] is idempotent: a second pass deletes nothing. *)
Theorem validate_symlinks_idempotent : forall st,
  validate_symlinks (validate_symlinks st) = validate_symlinks st.
Proof.
  intro st. unfold validate_symlinks.
  set (s1 := validate true st). set (s2 := validate false s1).
  assert (Hs2 : same false s1 s2) by apply validate_same.
  assert (Hm : validate true s2 = s2).
  { apply validate_fixed. intros r Hin.
    rewrite (row_valid_same false s1 s2 r Hs2).
    destruct Hs2 as (_ & _ & _ & _ & E). simpl in E, Hin. rewrite E in Hin.
    rewrite (row_valid_same true st s1 r (validate_same true st)).
    exact (validate_rows_valid true st r Hin). }
  rewrite Hm. apply validate_fixed. intros r Hin.
  rewrite (row_valid_same false s1 s2 r Hs2).
  exact (validate_rows_valid false s1 r Hin).
Qed.

Lemma is_symlink_added : forall s s' l x,
  link_target s l = None -> st_links s' = app (st_links s) [(l, x)] -> is_symlink s' l = true.
Proof.
  intros s s' l x Hn He. unfold is_symlink, link_target in *.
  rewrite He, assoc_app, Hn. simpl. rewrite path_eqb_refl. reflexivity.
Qed.

Lemma snoc_neq' : forall A (l : list A) x, app l [x] <> l.
Proof.
  intros A l x H. apply (f_equal (@length A)) in H.
  rewrite length_app in H. simpl in H. lia.
Qed.

(** Linking a source once and processing it again: the second call returns
    at the ledger check, with nothing changed. *)
Theorem rerun_after_link_is_noop : forall stop service titlecase (movies_root series_root : path)
    src fi tmdb_id st,
  (st_links (snd (run (process_movie stop service titlecase movies_root src fi tmdb_id) st))
     <> st_links st ->
   run (process_movie stop service titlecase movies_root src fi tmdb_id)
     (snd (run (process_movie stop service titlecase movies_root src fi tmdb_id) st))
   = (Returned, snd (run (process_movie stop service titlecase movies_root src fi tmdb_id) st))) /\
  (st_links (snd (run (process_series stop service titlecase series_root src fi tmdb_id) st))
     <> st_links st ->
   run (process_series stop service titlecase series_root src fi tmdb_id)
     (snd (run (process_series stop service titlecase series_root src fi tmdb_id) st))
   = (Returned, snd (run (process_series stop service titlecase series_root src fi tmdb_id) st))).
Proof.
  intros stop service tc mroot sroot src fi id st. split; intro Hne.
  - set (st1 := snd (run (process_movie stop service tc mroot src fi id) st)) in *.
    destruct (Good_process_movie stop service tc mroot src fi id st) as [Hf | Hk].
    + destruct Hf as (E & _). rewrite <- AtomicFacts.run_snd in E. fold st1 in E. contradiction.
    + destruct Hk as (l & Hn & Hl & Hd & _).
      rewrite <- AtomicFacts.run_snd in Hl, Hd. fold st1 in Hl, Hd. destruct (fi_title fi) as [t|] eqn:Hfi.
      * unfold run at 1, process_movie at 1, bind at 1, titlecase_opt at 1.
        rewrite Hfi. unfold ret, bind, has_recorded_symlink. cbn [db_of].
        simpl in Hd. rewrite Hd, assoc_db_replace, path_eqb_refl.
        rewrite (is_symlink_added st st1 l src Hn Hl). reflexivity.
      * exfalso. apply Hne. unfold st1, run, process_movie, bind, titlecase_opt.
        rewrite Hfi. reflexivity.
  - set (st1 := snd (run (process_series stop service tc sroot src fi id) st)) in *.
    destruct (Good_process_series stop service tc sroot src fi id st) as [Hf | Hk].
    + destruct Hf as (E & _). rewrite <- AtomicFacts.run_snd in E. fold st1 in E. contradiction.
    + destruct Hk as (l & Hn & Hl & Hd & _).
      rewrite <- AtomicFacts.run_snd in Hl, Hd. fold st1 in Hl, Hd. destruct (py_or (fi_title fi) (fi_series fi)) as [t|] eqn:Hp.
      * destruct (is_type_movie fi) eqn:Hty.
        -- exfalso. apply Hne. unfold st1, run, process_series, bind, titlecase_opt.
           rewrite Hp, Hty. reflexivity.
        -- unfold run at 1, process_series at 1, bind at 1, titlecase_opt at 1.
           rewrite Hp. unfold ret, bind, has_recorded_symlink. rewrite Hty. cbn [db_of].
           simpl in Hd. rewrite Hd, assoc_db_replace, path_eqb_refl.
           rewrite (is_symlink_added st st1 l src Hn Hl). reflexivity.
      * exfalso. apply Hne. unfold st1, run, process_series, bind, titlecase_opt.
        rewrite Hp. reflexivity.
Qed.

Lemma rerun_after_link_is_noop_witness :
  let st1 := snd (run (process_movie true svc_lib tc_title movie_root src_movie fi_movie
                         (TmdbId 12345)) st_lib) in
  st_links st1 <> st_links st_lib /\
  run (process_movie true svc_lib tc_title movie_root src_movie fi_movie (TmdbId 12345)) st1
  = (Returned, st1).
Proof.
  intros st1.
  assert (H : st_links st1 <> st_links st_lib) by (vm_compute; discriminate).
  split; [exact H|].
  exact (proj1 (rerun_after_link_is_noop true svc_lib tc_title movie_root series_root src_movie
                  fi_movie (TmdbId 12345) st_lib) H).
Defined.

End RerunFacts.

(* ------------------------------------------------------------------ *)
(** ** [normalize_dir_name] ignores case *)

Module NormalizeFacts.
Import PyStr SeriesStr.














End NormalizeFacts.

(* ------------------------------------------------------------------ *)
(** ** [clean_directory_name] removes separators *)

Module DirNameFacts.
Import PyStr SeriesStr.

Lemma str_drop_sub : forall n s x,
  In x (list_ascii_of_string (str_drop n s)) -> In x (list_ascii_of_string s).
Proof.
  induction n as [|n IH]; intros [|c s] x H; simpl in *; auto.
Qed.

Lemma str_drop_length : forall n s, String.length (str_drop n s) <= String.length s.
Proof.
  induction n as [|n IH]; intros [|c s]; simpl; auto; specialize (IH s); lia.
Qed.

Lemma del_sub : forall f m s x,
  In x (list_ascii_of_string (del_matches_fuel f m s)) -> In x (list_ascii_of_string s).
Proof.
  induction f as [|f IH]; intros m s x H; [exact H|].
  destruct s as [|c s']; [exact H|].
  cbn [del_matches_fuel] in H.
  destruct (m (String c s')) as [[|n]|].
  - simpl in H |- *. destruct H as [H|H]; [left; exact H|right; eapply IH; exact H].
  - apply IH in H. apply (str_drop_sub (S n) (String c s')). exact H.
  - simpl in H |- *. destruct H as [H|H]; [left; exact H|right; eapply IH; exact H].
Qed.

Lemma del_run_gone : forall f p s x,
  String.length s < f ->
  In x (list_ascii_of_string (del_matches_fuel f (m_run p) s)) -> p x = false.
Proof.
  induction f as [|f IH]; intros p s x Hl H; [lia|].
  destruct s as [|c s']; [destruct H|].
  cbn [del_matches_fuel] in H. unfold m_run in H. cbn [run_len] in H.
  simpl in Hl.
  destruct (p c) eqn:Pc.
  - apply IH in H; auto. cbn [str_drop].
    pose proof (str_drop_length (run_len p s') s'). lia.
  - simpl in H. destruct H as [<-|H]; auto.
    apply IH in H; auto. lia.
Qed.

Lemma del_matches_sub : forall m s x,
  In x (list_ascii_of_string (del_matches m s)) -> In x (list_ascii_of_string s).
Proof. intros m s x. apply del_sub. Qed.

Lemma del_matches_run : forall p s x,
  In x (list_ascii_of_string (del_matches (m_run p) s)) -> p x = false.
Proof. intros p s x. apply del_run_gone. lia. Qed.

Lemma lstrip_sub : forall s x,
  In x (list_ascii_of_string (lstrip_ws s)) -> In x (list_ascii_of_string s).
Proof.
  induction s as [|c s IH]; intros x H; simpl in *; auto.
  destruct (is_space c); simpl in H; auto.
Qed.

Lemma rstrip_sub : forall s x,
  In x (list_ascii_of_string (rstrip_ws s)) -> In x (list_ascii_of_string s).
Proof.
  induction s as [|c s IH]; intros x H; [exact H|].
  cbn [rstrip_ws] in H. cbn [list_ascii_of_string In].
  destruct (rstrip_ws s) as [|c' r] eqn:E.
  - destruct (is_space c); cbn in H; [destruct H|]. destruct H as [H|[]]; auto.
  - cbn [list_ascii_of_string In] in H. destruct H as [H|H]; [auto|].
    right. apply IH. exact H.
Qed.

Lemma strip_sub : forall s x,
  In x (list_ascii_of_string (strip s)) -> In x (list_ascii_of_string s).
Proof. intros s x H. apply rstrip_sub, lstrip_sub, H. Qed.

Lemma clean_directory_name_eq : forall name, clean_directory_name name = strip (del_matches (m_run (fun c => Ascii.eqb c "-"%char)) (del_matches (m_run (fun c => Ascii.eqb c "_"%char)) (del_matches (m_run is_space) (del_matches (m_lazy "{"%char "}"%char) (del_matches (m_lazy "["%char "]"%char) (del_matches m_dash_bracket (del_matches m_rarbg (del_matches m_paren_greedy (del_matches m_none (del_matches m_dots_rest (del_matches m_season_rest name))))))))))).
Proof. intros name. unfold clean_directory_name. cbv zeta. reflexivity. Qed.

(** [clean_directory_name] removes every whitespace character, underscore and
    hyphen: its result contains none of them, whatever the input. *)
Theorem clean_directory_name_no_separators : forall name,
  forallb (fun x => negb (is_space x) && negb (Ascii.eqb x "_"%char)
                    && negb (Ascii.eqb x "-"%char))
          (list_ascii_of_string (clean_directory_name name)) = true.
Proof.
  intros name. apply forallb_forall. intros x H.
  rewrite clean_directory_name_eq in H.
  apply strip_sub in H.
  pose proof (del_matches_run _ _ _ H) as H3.
  apply del_matches_sub in H.
  pose proof (del_matches_run _ _ _ H) as H2.
  apply del_matches_sub in H.
  pose proof (del_matches_run _ _ _ H) as H1.
  cbv beta in H1, H2, H3. rewrite H1, H2, H3. reflexivity.
Qed.

End DirNameFacts.

(* ------------------------------------------------------------------ *)
(** ** [get_tmdb_id]: the best match and the cache bound *)

Module ResolverMoreFacts.
Import PyStr Py Resolver CacheFacts.

Lemma best_match_gen : forall A (key : A -> nat) ys pre cur mid,
  Forall (fun y => key y < key cur) pre ->
  Forall (fun y => key y <= key cur) mid ->
  exists pre' post',
    app (app pre (cur :: mid)) ys = app pre' (fold_left (fun c y => if key c <? key y then y else c) ys cur :: post') /\
    Forall (fun y => key y < key (fold_left (fun c y => if key c <? key y then y else c) ys cur)) pre' /\
    Forall (fun y => key y <= key (fold_left (fun c y => if key c <? key y then y else c) ys cur)) post'.
Proof.
  intros A key ys. induction ys as [|y ys IH]; intros pre cur mid Hpre Hmid.
  - exists pre, mid. rewrite app_nil_r. auto.
  - cbn [fold_left]. destruct (key cur <? key y) eqn:E.
    + apply Nat.ltb_lt in E.
      destruct (IH (app pre (cur :: mid)) y []) as (pre' & post' & Heq & H1 & H2).
      * apply Forall_app. split.
        -- eapply Forall_impl; [|exact Hpre]. simpl. intros a Ha. lia.
        -- constructor; [exact E|]. eapply Forall_impl; [|exact Hmid]. simpl. intros a Ha. lia.
      * constructor.
      * exists pre', post'. split; auto. rewrite <- Heq. rewrite <- !app_assoc. reflexivity.
    + apply Nat.ltb_ge in E.
      destruct (IH pre cur (app mid [y])) as (pre' & post' & Heq & H1 & H2); auto.
      * apply Forall_app. split; auto.
      * exists pre', post'. split; auto. rewrite <- Heq. rewrite <- !app_assoc.
        simpl. rewrite <- app_assoc. reflexivity.
Qed.

Lemma best_match_spec : forall A (key : A -> nat) x xs,
  exists pre post, x :: xs = app pre (best_match key x xs :: post) /\
    Forall (fun y => key y < key (best_match key x xs)) pre /\
    Forall (fun y => key y <= key (best_match key x xs)) post.
Proof.
  intros A key x xs. unfold best_match.
  destruct (best_match_gen A key xs [] x []) as (pre & post & Heq & H1 & H2); auto.
  exists pre, post. split; auto.
Qed.

(** [get_tmdb_id] picks, among a non-empty list of search results, the first
    one whose name is most similar to the title: every earlier result is
    strictly less similar, every later one at most as similar, and the id
    returned is that result's. *)
Theorem get_tmdb_id_picks_first_best : forall stop service ratio title is_movie results,
  search service is_movie (query_of title) = SvcOk results -> results <> [] ->
  exists pre x post,
    results = app pre (x :: post) /\
    get_tmdb_id_body stop service ratio title is_movie = PyOk (TmdbId (snd x)) /\
    Forall (fun y => ratio (fst y) title < ratio (fst x) title) pre /\
    Forall (fun y => ratio (fst y) title <= ratio (fst x) title) post.
Proof.
  intros stop service ratio title is_movie results Hs Hne.
  destruct results as [|r rs]; [congruence|].
  destruct (best_match_spec _ (fun x => ratio (fst x) title) r rs) as (pre & post & Heq & H1 & H2).
  exists pre, (best_match (fun x => ratio (fst x) title) r rs), post.
  split; [exact Heq|]. split; [|auto].
  unfold get_tmdb_id_body. rewrite Hs. reflexivity.
Qed.

Lemma get_tmdb_id_picks_first_best_witness :
  search Fixtures.multi_hit_service true (query_of "Heat")
    = SvcOk [("Heat 2", 1); ("Heat", 949); ("Heat", 950)] /\
  exists pre x post,
    [("Heat 2", 1); ("Heat", 949); ("Heat", 950)] = app pre (x :: post) /\
    get_tmdb_id_body true Fixtures.multi_hit_service Fixtures.eq_ratio "Heat" true
      = PyOk (TmdbId (snd x)) /\
    Forall (fun y => Fixtures.eq_ratio (fst y) "Heat" < Fixtures.eq_ratio (fst x) "Heat") pre /\
    Forall (fun y => Fixtures.eq_ratio (fst y) "Heat" <= Fixtures.eq_ratio (fst x) "Heat") post.
Proof.
  assert (H : search Fixtures.multi_hit_service true (query_of "Heat")
              = SvcOk [("Heat 2", 1); ("Heat", 949); ("Heat", 950)]) by reflexivity.
  split; [exact H|].
  exact (get_tmdb_id_picks_first_best true Fixtures.multi_hit_service Fixtures.eq_ratio "Heat" true
           _ H ltac:(discriminate)).
Defined.

(** Starting from an empty cache, any sequence of [get_tmdb_id] calls leaves
    a cache that holds at most [maxsize] (1024) entries and never two entries
    for the same (title, kind) key. *)
Theorem get_tmdb_id_cache_bounded : forall stop service ratio calls,
  let c := r_cache (snd (run_calls stop service ratio calls empty_rstate)) in
  NoDup (map fst c) /\ length c <= maxsize.
Proof.
  intros stop service ratio calls.
  apply (run_calls_cache_ok stop service ratio calls empty_rstate).
  split; simpl; [constructor|unfold maxsize; lia].
Qed.

End ResolverMoreFacts.

(* ------------------------------------------------------------------ *)
(** ** [Handler.process]: the dispatcher *)

Module ProcessFacts.
Import PyStr Py Store Handler.

Lemma process_shape : forall stop service titlecase mt st_ mw sw pre guessit subl ratio p s,
  let r := process stop service titlecase mt st_ mw sw pre guessit subl ratio p s in
  r = (Val tt, s) \/ r = (Ctl CReturn, s) \/ (stop = true /\ r = (Ctl (CExit 1), s)).
Proof.
  intros stop service titlecase mt st_ mw sw pre guessit subl ratio p s r. subst r.
  unfold process.
  destruct (negb (existsb (String.eqb (suffix p)) video_suffixes)); [left; reflexivity|].
  unfold try_except_exit.
  destruct (is_extras_or_deleted p); [right; left; reflexivity|].
  unfold bind at 1, svc_call at 1.
  destruct (guessit (pre p)) as [fi|]; cbn -[process_movie process_series];
    [|destruct stop; cbn; auto].
  unfold bind at 1.
  destruct (negb (truthy_str (fi_title fi))).
  - unfold svc_call. destruct (subl (pre p)) as [fi2|]; cbn -[process_movie process_series];
      [|destruct stop; cbn; auto].
    destruct (negb (truthy_str (fi_title fi2))); cbn -[process_movie process_series];
      [auto|destruct stop; cbn; auto].
  - cbn -[process_movie process_series].
    destruct (negb (truthy_str (fi_title fi))); cbn -[process_movie process_series];
      [auto|destruct stop; cbn; auto].
Qed.

(** [process] never changes the filesystem or either ledger, for any file:
    it returns normally or ends in [sys.exit(1)], never with an exception. *)
Theorem process_never_links : forall stop service titlecase movies_target series_target
    movies_watch series_watch preprocess guessit subliminal ratio file_path st,
  let r := run (process stop service titlecase movies_target series_target movies_watch
                  series_watch preprocess guessit subliminal ratio file_path) st in
  snd r = st /\ (fst r = Returned \/ fst r = Exited 1).
Proof.
  intros. subst r. unfold run.
  destruct (process_shape stop service titlecase movies_target series_target movies_watch
              series_watch preprocess guessit subliminal ratio file_path st)
    as [H|[H|[_ H]]]; rewrite H; auto.
Qed.

(** A video file that is not an extra and whose name [guessit] reads a title
    from makes [process] call [sys.exit(1)] under [stop_on_error]: the
    [file_path.startswith] test raises before any TMDb lookup or link. *)
Theorem process_titled_video_exits : forall service titlecase movies_target series_target
    movies_watch series_watch preprocess guessit subliminal ratio file_path fi st,
  In (suffix file_path) video_suffixes ->
  is_extras_or_deleted file_path = false ->
  guessit (preprocess file_path) = SvcOk fi ->
  truthy_str (fi_title fi) = true ->
  run (process true service titlecase movies_target series_target movies_watch
         series_watch preprocess guessit subliminal ratio file_path) st = (Exited 1, st).
Proof.
  intros service titlecase movies_target series_target movies_watch series_watch preprocess
    guessit subliminal ratio file_path fi st Hs He Hg Ht.
  unfold run, process.
  replace (existsb (String.eqb (suffix file_path)) video_suffixes) with true.
  2:{ symmetry. apply existsb_exists. exists (suffix file_path). split; [exact Hs|apply String.eqb_refl]. }
  cbn [negb]. unfold try_except_exit. rewrite He.
  unfold bind at 1, svc_call at 1. rewrite Hg. cbn -[process_movie process_series].
  rewrite Ht. cbn -[process_movie process_series]. rewrite Ht. reflexivity.
Qed.

Lemma process_titled_video_exits_witness :
  In (suffix Fixtures.src_movie) video_suffixes /\
  is_extras_or_deleted Fixtures.src_movie = false /\
  run (process true Fixtures.svc_lib Fixtures.tc_title Fixtures.movie_root Fixtures.series_root
         ["pool"; "movies"] ["pool"; "shows"] last_name (fun _ => SvcOk Fixtures.fi_movie)
         (fun _ => SvcErr) Fixtures.eq_ratio Fixtures.src_movie) Fixtures.st_lib
  = (Exited 1, Fixtures.st_lib).
Proof.
  assert (H1 : In (suffix Fixtures.src_movie) video_suffixes) by (vm_compute; tauto).
  assert (H2 : is_extras_or_deleted Fixtures.src_movie = false) by (vm_compute; reflexivity).
  split; [exact H1|]. split; [exact H2|].
  exact (process_titled_video_exits Fixtures.svc_lib Fixtures.tc_title Fixtures.movie_root
           Fixtures.series_root ["pool"; "movies"] ["pool"; "shows"] last_name
           (fun _ => SvcOk Fixtures.fi_movie) (fun _ => SvcErr) Fixtures.eq_ratio
           Fixtures.src_movie Fixtures.fi_movie Fixtures.st_lib H1 H2 eq_refl eq_refl).
Defined.
End ProcessFacts.

(* ------------------------------------------------------------------ *)
(** ** [Cinesync.py] *)

Module CinesyncFacts.
Import PyStr Py SeriesStr Store Handler Cinesync.

Lemma zip_matches_le : forall a b,
  zip_matches a b <= Nat.min (String.length a) (String.length b).
Proof.
  induction a as [|x a IH]; intros [|y b]; simpl; try lia.
  specialize (IH b). destruct (Ascii.eqb x y); lia.
Qed.

Lemma zip_matches_refl : forall a, zip_matches a a = String.length a.
Proof.
  induction a as [|x a IH]; simpl; auto. rewrite Ascii.eqb_refl, IH. reflexivity.
Qed.

Lemma zip_matches_max : forall a b,
  zip_matches a b = Nat.max (String.length a) (String.length b) -> a = b.
Proof.
  induction a as [|x a IH]; intros [|y b] H; simpl in H; auto; try lia.
  pose proof (zip_matches_le a b).
  destruct (Ascii.eqb x y) eqn:E.
  - apply Ascii.eqb_eq in E. subst y. f_equal. apply IH. lia.
  - lia.
Qed.

(** [similarity(a, b)] raises [ZeroDivisionError] exactly when both strings
    are empty; otherwise it is a fraction between 0 and 1 that equals 1
    exactly when the strings are equal. *)
Theorem similarity_range : forall a b,
  match similarity a b with
  | None => a = "" /\ b = ""
  | Some (m, d) => 0 < d /\ m <= d /\ (m = d <-> a = b)
  end.
Proof.
  intros a b. unfold similarity.
  destruct (Nat.max (String.length a) (String.length b) =? 0) eqn:E.
  - apply Nat.eqb_eq in E.
    destruct a, b; simpl in E; try lia. auto.
  - apply Nat.eqb_neq in E. pose proof (zip_matches_le a b).
    split; [lia|]. split; [lia|]. split.
    + apply zip_matches_max.
    + intros <-. rewrite zip_matches_refl. lia.
Qed.

Lemma filter_none : forall A (f : A -> bool) l,
  forallb (fun x => negb (f x)) l = true -> filter f l = [].
Proof.
  intros A f l. induction l as [|x l IH]; simpl; auto.
  intros H. apply andb_true_iff in H as [H1 H2].
  destruct (f x); [discriminate|]. auto.
Qed.

(** With the id ["N/A"] and no entry of the series directory whose
    normalised name matches the series title's, [process_series] creates no
    directory, link or [symlink_map] entry, and it does not complete: it
    returns early or raises (the unassigned [series_dir]). *)
Theorem series_not_found_no_effect : forall movies_target series_target file_path fi s,
  let t := match py_or (fi_title fi) (fi_series fi) with Some t => t | None => "" end in
  forallb (fun d => negb (String.eqb (normalize_dir_name d) (normalize_dir_name t)))
          (iterdir (cs_fs s) series_target) = true ->
  let r := process_series movies_target series_target file_path fi NotFound s in
  snd r = s /\ fst r <> Val tt.
Proof.
  intros movies_target series_target file_path fi s t Hn r. subst r t.
  unfold process_series, cbind.
  destruct (py_or (fi_title fi) (fi_series fi)) as [t0|] eqn:Ht; cbn [cret craise];
    [|split; [reflexivity|discriminate]].
  unfold has_mapped_symlink.
  destruct (assoc file_path (cs_map s)) as [l|];
    [destruct (is_symlink (cs_fs s) l)|]; cbn [cret creturn];
    try (split; [reflexivity|discriminate]).
  all: destruct (negb (truthy_str (Some t0) && truthy_pyint (fi_season fi) && truthy_pyint (fi_episode fi)));
    cbn [creturn]; try (split; [reflexivity|discriminate]).
  all: unfold fmt_int; destruct (fi_season fi) as [[sn|]|]; cbn [cret craise];
    try (split; [reflexivity|discriminate]).
  all: destruct (fi_episode fi) as [[en|]|]; cbn [cret craise];
    try (split; [reflexivity|discriminate]).
  all: unfold lift, list_dir; destruct (is_dir (cs_fs s) series_target); cbv beta iota;
    [rewrite (filter_none _ _ _ Hn)|]; cbn;
    split; try discriminate; destruct s; reflexivity.
Qed.

Lemma series_not_found_no_effect_witness :
  forallb (fun d => negb (String.eqb (normalize_dir_name d) (normalize_dir_name "show")))
          (iterdir (cs_fs Fixtures.cs_lib) Fixtures.series_root) = true /\
  let r := process_series Fixtures.movie_root Fixtures.series_root Fixtures.src_e02
             Fixtures.fi_e02 NotFound Fixtures.cs_lib in
  snd r = Fixtures.cs_lib /\ fst r <> Val tt.
Proof.
  assert (H : forallb (fun d => negb (String.eqb (normalize_dir_name d) (normalize_dir_name "show")))
                (iterdir (cs_fs Fixtures.cs_lib) Fixtures.series_root) = true)
    by (vm_compute; reflexivity).
  split; [exact H|].
  exact (series_not_found_no_effect Fixtures.movie_root Fixtures.series_root Fixtures.src_e02
           Fixtures.fi_e02 Fixtures.cs_lib H).
Defined.

Lemma strip_special_all : forall t,
  forallb (fun c => Ascii.eqb c "#"%char || is_digit c) (list_ascii_of_string t) = true ->
  strip_special t = "".
Proof.
  induction t as [|c t IH]; simpl; auto.
  intros H. apply andb_true_iff in H as [H1 H2]. rewrite H1. auto.
Qed.

(** A movie file whose title is made only of digits and ['#'] (such as
    ["1917"]) and whose first TMDb lookup gives ["N/A"] is never linked: the
    retry loop strips its title to [''], and [process_movie] then returns at
    the missing-title check; nothing in the filesystem or the map changes. *)
Theorem digit_title_not_found_skipped : forall service movies_watch movies_target
    series_watch series_target guessit file_path fi t s,
  ends_with ".mp4" (path_str file_path) || ends_with ".mkv" (path_str file_path) = true ->
  guessit (path_str (parent file_path) ++ "/"
           ++ Clean.clean_file_name_in Clean.words_to_remove (last_name file_path)) = SvcOk fi ->
  prefix (path_str movies_watch) (path_str file_path) = true ->
  fi_title fi = Some t ->
  forallb (fun c => Ascii.eqb c "#"%char || is_digit c) (list_ascii_of_string t) = true ->
  get_tmdb_id service (Some t) true = NotFound ->
  process service movies_watch movies_target series_watch series_target guessit file_path s
  = (Val tt, s).
Proof.
  intros service movies_watch movies_target series_watch series_target guessit file_path fi t s
    Hext Hg Hp Ht Hd Hid.
  unfold process. rewrite Hext. cbn [negb].
  unfold logged, cbind. rewrite Hg. unfold cret. cbv beta iota. rewrite Hp.
  rewrite Ht, Hid, (strip_special_all t Hd).
  unfold process_movie, cbind, has_mapped_symlink. cbn [with_title fi_title].
  destruct (assoc file_path (cs_map s)) as [l|]; [destruct (is_symlink (cs_fs s) l)|];
    reflexivity.
Qed.

Lemma digit_title_not_found_skipped_witness :
  get_tmdb_id Fixtures.svc_lib (Some "1917") true = NotFound /\
  process Fixtures.svc_lib ["pool"; "movies"] Fixtures.movie_root ["pool"; "shows"]
    Fixtures.series_root (fun _ => SvcOk Fixtures.fi_1917) Fixtures.src_1917 Fixtures.cs_lib
  = (Val tt, Fixtures.cs_lib).
Proof.
  assert (H : get_tmdb_id Fixtures.svc_lib (Some "1917") true = NotFound) by reflexivity.
  split; [exact H|].
  exact (digit_title_not_found_skipped Fixtures.svc_lib ["pool"; "movies"] Fixtures.movie_root
           ["pool"; "shows"] Fixtures.series_root (fun _ => SvcOk Fixtures.fi_1917)
           Fixtures.src_1917 Fixtures.fi_1917 "1917" Fixtures.cs_lib
           ltac:(vm_compute; reflexivity) eq_refl ltac:(vm_compute; reflexivity) eq_refl
           ltac:(vm_compute; reflexivity) H).
Defined.








End CinesyncFacts.
